(** * seesaw/externalprocess.py: the ExternalProcess task and its presets

    A shallow embedding of [ExternalProcess], [WgetDownload] and
    [RsyncUpload].  The item is a dictionary ([gmap]); every call the task
    makes on a collaborator (the item's log sinks, the task lifecycle
    callbacks, the pty master file object, the child process handle and the
    tornado IOLoop) is appended, in program order, to a call log carried by
    the state, so that counting and ordering properties of the callbacks can
    be stated on the code as it is written. *)

From Stdlib Require Import Ascii String.
From stdpp Require Import base gmap strings list pretty.

Local Open Scope string_scope.
Local Open Scope list_scope.
Local Open Scope Z_scope.

(** ** Python values, exceptions *)

Inductive value :=
| VInt (n : Z)
| VStr (s : string).

Inductive exn :=
| KeyError (key : string)
| TypeError
| ValueError (msg : string)
| AttributeError (attr : string)
| OverflowError.

Inductive Res (A : Type) :=
| Ok (a : A)
| Raise (e : exn).
Arguments Ok {A} a.
Arguments Raise {A} e.

Definition bind {A B} (r : Res A) (k : A → Res B) : Res B :=
  match r with
  | Ok a => k a
  | Raise e => Raise e
  end.

Notation "x ←! r ; k" := (bind r (λ x, k))
  (at level 100, r at next level, right associativity).

(** ** Collaborators *)

(** Modelled from the spec: [realize] of seesaw/item.py is not part of the
    excerpt.  It is "a pure function [realize(value, item)]" that resolves
    per-item dynamic templates into concrete strings; a plain string is
    already concrete. *)
Inductive template :=
| Literal (s : string)
| Dynamic (f : gmap string value → string).

Definition realize (v : template) (item : gmap string value) : string :=
  match v with
  | Literal s => s
  | Dynamic f => f item
  end.

(** The closures handed to the IOLoop, one constructor per
    [functools.partial] of the source. *)
Inductive callback :=
| process_cb
| wait_for_end_cb (pipe : nat)
| on_subprocess_stdout_cb (m pipe : nat).

Inductive timedelta :=
| milliseconds (n : Z)
| seconds (n : Z).

(** Calls made on collaborators, in the order the program makes them.  The
    master file objects [m] and the process handles [pipe] are numbered by
    run attempt. *)
Inductive call :=
| start_item
| complete_item
| fail_item
| log_output (text : string)
| log_error (exit_code : Z)
| openpty (master_fd : Z)
| Popen (pipe : nat) (argv : list string) (environ : option (list (string * string)))
| stdin_write (pipe : nat) (text : string)
| stdin_close (pipe : nat)
| set_nonblocking (fd : Z)
| add_handler (fd : Z) (cb : callback) (events : Z)
| m_read (m : nat)
| m_close (m : nat)
| remove_handler (fd : Z)
| poll (pipe : nat)
| add_timeout (delay : timedelta) (cb : callback).

(** tornado.ioloop.IOLoop constants. *)
Definition _EPOLLIN : Z := 1.
Definition _EPOLLHUP : Z := 16.
Definition READ : Z := _EPOLLIN.

(** ** The task descriptor *)

Inductive task_class :=
| ExternalProcessClass
| WgetDownloadClass
| RsyncUploadClass (files : list template) (target_source_path : string).

(** [on_error] and [task_str] come from the base class [Task], which is not
    part of the excerpt: [on_error] is [None] when the instance has no
    attribute [on_error] and otherwise the truth value of [self.on_error];
    [task_str] is [str(self)]. *)
Record Task := {
  name : string;
  args : list template;
  max_tries : option Z;
  retry_delay : Z;
  accept_on_exit_code : list Z;
  retry_on_exit_code : option (list Z);
  env : option (list (string * template));
  class : task_class;
  on_error : option bool;
  task_str : string
}.

(** ** The state the callbacks run in *)

Record World := {
  item : gmap string value;            (* item[key] *)
  description : string;                (* item.description() *)
  closed : gset nat;                   (* master file objects with m.closed *)
  handlers : gmap Z callback;          (* IOLoop handlers, by descriptor *)
  timeouts : list (timedelta * callback);  (* pending IOLoop timeouts *)
  attempts : nat;                      (* run attempts created so far *)
  getcwd : string;                     (* os.getcwd() inside task_cwd() *)
  calls : list call
}.

Definition emit (c : call) (w : World) : World :=
  {| item := item w; description := description w; closed := closed w;
     handlers := handlers w; timeouts := timeouts w; attempts := attempts w;
     getcwd := getcwd w; calls := calls w ++ [c] |}.

Definition set_item (key : string) (v : value) (w : World) : World :=
  {| item := <[key := v]> (item w); description := description w;
     closed := closed w; handlers := handlers w; timeouts := timeouts w;
     attempts := attempts w; getcwd := getcwd w; calls := calls w |}.

Definition set_closed (s : gset nat) (w : World) : World :=
  {| item := item w; description := description w; closed := s;
     handlers := handlers w; timeouts := timeouts w; attempts := attempts w;
     getcwd := getcwd w; calls := calls w |}.

Definition set_handlers (h : gmap Z callback) (w : World) : World :=
  {| item := item w; description := description w; closed := closed w;
     handlers := h; timeouts := timeouts w; attempts := attempts w;
     getcwd := getcwd w; calls := calls w |}.

Definition set_timeouts (l : list (timedelta * callback)) (w : World) : World :=
  {| item := item w; description := description w; closed := closed w;
     handlers := handlers w; timeouts := l; attempts := attempts w;
     getcwd := getcwd w; calls := calls w |}.

Definition set_attempts (n : nat) (w : World) : World :=
  {| item := item w; description := description w; closed := closed w;
     handlers := handlers w; timeouts := timeouts w; attempts := n;
     getcwd := getcwd w; calls := calls w |}.

(** [item[key]] read as an integer. *)
Definition get_int (key : string) (w : World) : Res Z :=
  match item w !! key with
  | None => Raise (KeyError key)
  | Some (VInt n) => Ok n
  | Some (VStr _) => Raise TypeError
  end.

(** IOLoop.add_timeout, IOLoop.add_handler, IOLoop.remove_handler, m.close(). *)
Definition do_add_timeout (d : timedelta) (cb : callback) (w : World) : World :=
  set_timeouts (timeouts w ++ [(d, cb)]) (emit (add_timeout d cb) w).

Definition do_add_handler (fd : Z) (cb : callback) (events : Z) (w : World) : World :=
  set_handlers (<[fd := cb]> (handlers w)) (emit (add_handler fd cb events) w).

Definition do_remove_handler (fd : Z) (w : World) : World :=
  set_handlers (delete fd (handlers w)) (emit (remove_handler fd) w).

Definition do_close (m : nat) (w : World) : World :=
  set_closed ({[m]} ∪ closed w) (emit (m_close m) w).

Definition is_closed (m : nat) (w : World) : bool := bool_decide (m ∈ closed w).

(** ** os.path on POSIX

    [RsyncUpload.stdin_data] calls [os.path.relpath] of the Python standard
    library; the definitions below follow posixpath.py ([split] is
    [str.split(sep)] with one separator character). *)
Module posixpath.

Definition sep : ascii := "/"%char.

Fixpoint split (c : ascii) (s : string) : list string :=
  match s with
  | EmptyString => [EmptyString]
  | String a s' =>
      if Ascii.eqb a c then EmptyString :: split c s'
      else match split c s' with
           | [] => [String a EmptyString]
           | x :: xs => String a x :: xs
           end
  end.

Definition startswith_sep (s : string) : bool :=
  match s with
  | String a _ => Ascii.eqb a sep
  | EmptyString => false
  end.

Fixpoint endswith_sep (s : string) : bool :=
  match s with
  | EmptyString => false
  | String a EmptyString => Ascii.eqb a sep
  | String _ s' => endswith_sep s'
  end.

Definition isabs (s : string) : bool := startswith_sep s.

(** One round of the loop of [join(a, *p)]. *)
Definition join2 (path b : string) : string :=
  if startswith_sep b then b
  else if String.eqb path "" || endswith_sep path then path +:+ b
  else path +:+ "/" +:+ b.

Definition join (a : string) (p : list string) : string := fold_left join2 p a.

(** 0, 1 or 2: POSIX keeps exactly two leading slashes apart. *)
Definition initial_slashes (path : string) : nat :=
  match path with
  | String a (String b (String c _)) =>
      if Ascii.eqb a sep then
        if Ascii.eqb b sep && negb (Ascii.eqb c sep) then 2%nat else 1%nat
      else 0%nat
  | String a (String b EmptyString) =>
      if Ascii.eqb a sep then (if Ascii.eqb b sep then 2%nat else 1%nat) else 0%nat
  | String a EmptyString => if Ascii.eqb a sep then 1%nat else 0%nat
  | EmptyString => 0%nat
  end.

(** The body of the loop [for comp in comps] of [normpath]. *)
Definition norm_step (slashes : nat) (new_comps : list string) (comp : string)
  : list string :=
  if String.eqb comp "" || String.eqb comp "." then new_comps
  else if negb (String.eqb comp "..")
          || (Nat.eqb slashes 0 && bool_decide (new_comps = []))
          || match last new_comps with
             | Some c => String.eqb c ".."
             | None => false
             end
       then new_comps ++ [comp]
       else removelast new_comps.

Definition slashes_str (n : nat) : string :=
  String.concat "" (replicate n "/").

Definition normpath (path : string) : string :=
  if String.eqb path "" then "."
  else
    let n := initial_slashes path in
    let new_comps := fold_left (norm_step n) (split sep path) [] in
    let path' := slashes_str n +:+ String.concat "/" new_comps in
    if String.eqb path' "" then "." else path'.

Definition abspath (cwd path : string) : string :=
  if isabs path then normpath path else normpath (join cwd [path]).

(** [len(commonprefix([l1, l2]))]: the number of leading components the two
    lists share. *)
Fixpoint common_len (l1 l2 : list string) : nat :=
  match l1, l2 with
  | x :: l1', y :: l2' => if String.eqb x y then S (common_len l1' l2') else 0%nat
  | _, _ => 0%nat
  end.

Definition nonempty (s : string) : bool := negb (String.eqb s "").

Definition components (cwd path : string) : list string :=
  List.filter nonempty (split sep (abspath cwd path)).

Definition relpath (cwd path start : string) : Res string :=
  if String.eqb path "" then Raise (ValueError "no path specified")
  else
    let start_list := components cwd start in
    let path_list := components cwd path in
    let i := common_len start_list path_list in
    let rel_list := replicate (length start_list - i) ".." ++ drop i path_list in
    match rel_list with
    | [] => Ok "."
    | a :: p => Ok (join a p)
    end.

End posixpath.

Definition nl : string := String (ascii_of_nat 10) EmptyString.

Fixpoint mapM {A B} (f : A → Res B) (l : list A) : Res (list B) :=
  match l with
  | [] => Ok []
  | x :: l' => y ←! f x; ys ←! mapM f l'; Ok (y :: ys)
  end.

(** ** ExternalProcess *)

(** [stdin_data]: the empty string, overridden by [RsyncUpload]. *)
Definition stdin_data (t : Task) (w : World) : Res string :=
  match class t with
  | RsyncUploadClass files target_source_path =>
      lines ←! mapM (λ f,
                 r ←! posixpath.relpath (getcwd w) (realize f (item w))
                        target_source_path;
                 Ok (r +:+ nl)) files;
      Ok (String.concat "" lines)
  | _ => Ok ""
  end.

(** [__init__]; the defaults of the source are [max_tries=1],
    [retry_delay=30], [accept_on_exit_code=[0]], [retry_on_exit_code=None],
    [env=None]. *)
Definition ExternalProcess (base : option bool * string) (name : string)
    (args : list template) (max_tries : option Z) (retry_delay : Z)
    (accept_on_exit_code : list Z) (retry_on_exit_code : option (list Z))
    (env : option (list (string * template))) : Task :=
  {| name := name; args := args; max_tries := max_tries;
     retry_delay := retry_delay; accept_on_exit_code := accept_on_exit_code;
     retry_on_exit_code := retry_on_exit_code; env := env;
     class := ExternalProcessClass;
     on_error := base.1; task_str := base.2 |}.

Definition with_class (c : task_class) (t : Task) : Task :=
  {| name := name t; args := args t; max_tries := max_tries t;
     retry_delay := retry_delay t; accept_on_exit_code := accept_on_exit_code t;
     retry_on_exit_code := retry_on_exit_code t; env := env t;
     class := c; on_error := on_error t; task_str := task_str t |}.

Definition WgetDownload (base : option bool * string) (args : list template)
    (max_tries : option Z) (accept_on_exit_code : list Z)
    (retry_on_exit_code : option (list Z))
    (env : option (list (string * template))) : Task :=
  with_class WgetDownloadClass
    (ExternalProcess base "WgetDownload" args max_tries 30
       accept_on_exit_code retry_on_exit_code env).

Definition RsyncUpload (base : option bool * string) (target : template)
    (files : list template) (target_source_path : string) (bwlimit : template)
    (max_tries : option Z) : Task :=
  with_class (RsyncUploadClass files target_source_path)
    (ExternalProcess base "RsyncUpload"
       [ Literal "rsync"; Literal "-avz"; Literal "--compress-level=9";
         Literal "--timeout=30"; Literal "--contimeout=30";
         Literal "--progress"; Literal "--bwlimit"; bwlimit;
         Literal "--files-from=-"; Literal target_source_path; target ]
       max_tries 30 [0] None None).

Definition realize_env (e : option (list (string * template)))
    (item : gmap string value) : option (list (string * string)) :=
  match e with
  | Some l => Some (map (λ kv : string * template, (kv.1, realize kv.2 item)) l)
  | None => None
  end.

(** The lines the task writes to the item's output log: the format strings
    of the source, filled in. *)
Definition starting_line (t : Task) (w : World) : string :=
  "Starting " +:+ task_str t +:+ " for " +:+ description w +:+ nl.
Definition finished_line (t : Task) (w : World) : string :=
  "Finished " +:+ task_str t +:+ " for " +:+ description w +:+ nl.
Definition returned_line (t : Task) (exit_code : Z) (w : World) : string :=
  "Process " +:+ task_str t +:+ " returned exit code " +:+ pretty exit_code
    +:+ " for " +:+ description w +:+ nl.
Definition retrying_line (t : Task) (w : World) : string :=
  "Retrying " +:+ task_str t +:+ " for " +:+ description w +:+ " after "
    +:+ pretty (retry_delay t) +:+ " seconds..." +:+ nl.
Definition failed_line (t : Task) (w : World) : string :=
  "Failed " +:+ task_str t +:+ " for " +:+ description w +:+ nl.

(** [process]: one run attempt.  [master_fd] is the descriptor that
    [pty.openpty()] returns; the attempt's file object and process handle
    get the next attempt number. *)
Definition process (t : Task) (master_fd : Z) (w : World) : Res World :=
  let a := attempts w in
  let w := set_attempts (S a) (emit (openpty master_fd) w) in
  let w := emit (Popen a (map (λ v, realize v (item w)) (args t))
                   (realize_env (env t) (item w))) w in
  data ←! stdin_data t w;
  let w := emit (stdin_write a data) w in
  let w := emit (stdin_close a) w in
  let w := emit (set_nonblocking master_fd) w in
  Ok (do_add_handler master_fd (on_subprocess_stdout_cb a a) READ w).

Definition enqueue (t : Task) (master_fd : Z) (w : World) : Res World :=
  let w := emit start_item w in
  let w := emit (log_output (starting_line t w)) w in
  let w := set_item "tries" (VInt 1) w in
  process t master_fd w.

Definition handle_process_result (t : Task) (exit_code : Z) (w : World)
  : Res World :=
  let w := emit (log_output (finished_line t w)) w in
  Ok (emit complete_item w).

(** [datetime.timedelta(seconds=s)]: the days of a timedelta are at most
    999999999 in magnitude, and a value outside that range raises. *)
Definition timedelta_in_range (s : Z) : bool :=
  (-999999999 * 86400 <=? s) && (s <? 1000000000 * 86400).

Definition timedelta_seconds (s : Z) : Res timedelta :=
  if timedelta_in_range s then Ok (seconds s) else Raise OverflowError.

(** The condition of the [if] of [handle_process_error], on the value of
    [item["tries"]] read after the increment. *)
Definition may_retry (t : Task) (tries exit_code : Z) : bool :=
  match max_tries t with
  | None => true
  | Some m => tries <? m
  end
  && match retry_on_exit_code t with
     | None => true
     | Some codes => bool_decide (exit_code ∈ codes)
     end.

Definition handle_process_error (t : Task) (exit_code : Z) (w : World)
  : Res World :=
  tries ←! get_int "tries" w;
  let w := set_item "tries" (VInt (tries + 1)) w in
  let w := emit (log_output (returned_line t exit_code w)) w in
  let w := emit (log_error exit_code) w in
  tries ←! get_int "tries" w;
  if may_retry t tries exit_code then
    let w := emit (log_output (retrying_line t w)) w in
    delay ←! timedelta_seconds (retry_delay t);
    Ok (do_add_timeout delay process_cb w)
  else
    match on_error t with
    | None => Raise (AttributeError "on_error")
    | Some true =>
        let w := emit (log_output (failed_line t w)) w in
        Ok (emit fail_item w)
    | Some false => Ok w
    end.

(** [wait_for_end]: [returncode] is the value of [pipe.returncode] once
    [pipe.poll()] has returned. *)
Definition wait_for_end (t : Task) (pipe : nat) (returncode : option Z)
    (w : World) : Res World :=
  let w := emit (poll pipe) w in
  match returncode with
  | Some code =>
      if bool_decide (code ∈ accept_on_exit_code t)
      then handle_process_result t code w
      else handle_process_error t code w
  | None =>
      Ok (do_add_timeout (milliseconds 250) (wait_for_end_cb pipe) w)
  end.

(** [on_subprocess_stdout], the readiness callback.  [data] is what
    [m.read()] returns if it is called. *)
Definition on_subprocess_stdout (t : Task) (m pipe : nat) (fd events : Z)
    (data : string) (returncode : option Z) (w : World) : Res World :=
  let w :=
    if negb (is_closed m w) && negb (Z.land events _EPOLLIN =? 0)
    then emit (log_output data) (emit (m_read m) w)
    else w in
  if Z.land events _EPOLLHUP >? 0 then
    let w := do_close m w in
    let w := do_remove_handler fd w in
    wait_for_end t pipe returncode w
  else Ok w.

(** ** The IOLoop driving one item

    The loop calls back what the task registered: a readiness notification
    on a descriptor goes to the handler registered for it, and a due timeout
    is removed from the pending ones and called.  The inputs of a callback
    that come from the operating system travel with the event: the bytes a
    read returns, the exit status the child has at the poll, the descriptor
    of a new pty. *)
Inductive io_event :=
| ready (fd events : Z) (data : string) (returncode : option Z)
| timer (master_fd : Z) (returncode : option Z).

Definition loop_step (t : Task) (e : io_event) (w : World) : Res World :=
  match e with
  | ready fd events data returncode =>
      match handlers w !! fd with
      | Some (on_subprocess_stdout_cb m pipe) =>
          on_subprocess_stdout t m pipe fd events data returncode w
      | _ => Ok w
      end
  | timer master_fd returncode =>
      match timeouts w with
      | [] => Ok w
      | (_, cb) :: rest =>
          let w := set_timeouts rest w in
          match cb with
          | process_cb => process t master_fd w
          | wait_for_end_cb pipe => wait_for_end t pipe returncode w
          | on_subprocess_stdout_cb _ _ => Ok w
          end
      end
  end.

Fixpoint loop (t : Task) (es : list io_event) (w : World) : Res World :=
  match es with
  | [] => Ok w
  | e :: es' => w' ←! loop_step t e w; loop t es' w'
  end.

(** The item before the task sees it: nothing registered, nothing called. *)
Definition fresh (fields : gmap string value) (descr cwd : string) : World :=
  {| item := fields; description := descr; closed := ∅; handlers := ∅;
     timeouts := []; attempts := 0; getcwd := cwd; calls := [] |}.

Definition run (t : Task) (master_fd : Z) (es : list io_event) (w : World)
  : Res World :=
  w' ←! enqueue t master_fd w; loop t es w'.

(** ** Observations on the call log *)

Definition is_outcome (c : call) : bool :=
  match c with
  | complete_item | fail_item => true
  | _ => false
  end.

Definition is_start (c : call) : bool :=
  match c with
  | Popen _ _ _ => true
  | _ => false
  end.

Definition is_retry (c : call) : bool :=
  match c with
  | add_timeout _ process_cb => true
  | _ => false
  end.

Definition outcomes (w : World) : list call := List.filter is_outcome (calls w).
Definition starts (w : World) : nat := length (List.filter is_start (calls w)).
Definition retries (w : World) : nat := length (List.filter is_retry (calls w)).
Definition output_log (w : World) : list string :=
  omap (λ c, match c with log_output s => Some s | _ => None end) (calls w).

Definition tries (w : World) : option value := item w !! "tries".

(** Nothing is registered with the loop any more. *)
Definition at_rest (w : World) : Prop := handlers w = ∅ ∧ timeouts w = [].

(** A hang-up with a last readable batch, exit status [code] available. *)
Definition exits (fd : Z) (data : string) (code : Z) : io_event :=
  ready fd (Z.lor _EPOLLIN _EPOLLHUP) data (Some code).

(** ** Definitions used by the statements *)

(** The state [handle_process_error] is in after the increment and the two
    log calls, before it decides. *)
Definition counted (t : Task) (exit_code n : Z) (w : World) : World :=
  emit (log_error exit_code)
    (emit (log_output (returned_line t exit_code w))
       (set_item "tries" (VInt (n + 1)) w)).

(** ** The states of one item's run

    What is registered with the loop and what has been reported tell where
    the item is: an attempt is running (its handler is registered), its exit
    status is awaited (a poll timeout is pending), a retry is scheduled, or
    the run is over: completed, failed, or neither reported. *)
Inductive phase := Running | Polling | Retrying | Completed | Failed | Dropped.

Definition in_phase (ph : phase) (w : World) : Prop :=
  match ph with
  | Running =>
      (∃ fd m pipe, handlers w = {[fd := on_subprocess_stdout_cb m pipe]})
      ∧ timeouts w = [] ∧ outcomes w = []
  | Polling =>
      handlers w = ∅
      ∧ (∃ pipe, timeouts w = [(milliseconds 250, wait_for_end_cb pipe)])
      ∧ outcomes w = []
  | Retrying =>
      handlers w = ∅ ∧ (∃ d, timeouts w = [(d, process_cb)]) ∧ outcomes w = []
  | Completed => handlers w = ∅ ∧ timeouts w = [] ∧ outcomes w = [complete_item]
  | Failed => handlers w = ∅ ∧ timeouts w = [] ∧ outcomes w = [fail_item]
  | Dropped => handlers w = ∅ ∧ timeouts w = [] ∧ outcomes w = []
  end.

(** How far [item["tries"]] is ahead of the number of process starts. *)
Definition tries_ahead (ph : phase) : Z :=
  match ph with
  | Running | Polling | Completed => 0
  | Retrying | Failed | Dropped => 1
  end.

Definition retry_pending (ph : phase) : nat :=
  match ph with
  | Retrying => 1
  | _ => 0
  end.

(** What the task's configuration says about the state reached after an
    exit status was classified with [item["tries"]] at [n] before. *)
Definition allowed (t : Task) (n : Z) (ph : phase) : Prop :=
  match ph with
  | Retrying =>
      retry_on_exit_code t ≠ Some []
      ∧ ∀ m, max_tries t = Some m → n + 1 < m
  | Dropped => on_error t = Some false
  | _ => True
  end.

Record run_inv (t : Task) (w : World) (ph : phase) : Prop := {
  inv_phase : in_phase ph w;
  inv_tries : tries w = Some (VInt (Z.of_nat (starts w) + tries_ahead ph));
  inv_retries : (retries w + 1 = starts w + retry_pending ph)%nat;
  inv_started : (1 ≤ starts w)%nat;
  inv_empty_set : retry_on_exit_code t = Some [] → retries w = 0%nat;
  inv_max_tries : ∀ m, max_tries t = Some m →
    Z.of_nat (starts w + retry_pending ph) ≤ Z.max 1 (m - 1);
  inv_dropped : ph = Dropped → on_error t = Some false
}.

(** *** The file list of the specification *)

(** One relative path per line, in the order of the list: the words of the
    specification, to compare [RsyncUpload.stdin_data] with. *)
Fixpoint relative_file_list (cwd base : string) (paths : list string)
  : Res string :=
  match paths with
  | [] => Ok ""
  | p :: ps =>
      r ←! posixpath.relpath cwd p base;
      rest ←! relative_file_list cwd base ps;
      Ok (r +:+ nl +:+ rest)
  end.

(** *** Path components *)

(** A name that [str.split] leaves whole and [normpath] keeps. *)
Definition plain (c : string) : Prop :=
  posixpath.split posixpath.sep c = [c] ∧ c ≠ "" ∧ c ≠ "." ∧ c ≠ "..".

Definition whole (c : string) : Prop := posixpath.split posixpath.sep c = [c].

Definition kept (c : string) : Prop := whole c ∧ c ≠ "".

(** *** Concrete tasks and items for the scenarios *)

Definition job (on_err : option bool) (max : option Z)
    (retry : option (list Z)) : Task :=
  ExternalProcess (on_err, "Job") "Job" [Literal "true"] max 30 [0] retry None.

Definition item1 : World := fresh ∅ "item-1" "/".

(** *** Further observations and event scripts *)

Definition is_log_error (c : call) : bool :=
  match c with
  | log_error _ => true
  | _ => false
  end.

Definition is_fail (c : call) : bool :=
  match c with
  | fail_item => true
  | _ => false
  end.

Definition errors_logged (w : World) : nat :=
  length (List.filter is_log_error (calls w)).
Definition failures (w : World) : nat :=
  length (List.filter is_fail (calls w)).

(** The master file objects on which [close()] was called, in call order. *)
Definition closed_ids (w : World) : list nat :=
  omap (λ c, match c with m_close m => Some m | _ => None end) (calls w).

(** The relative path of a file of [RsyncUpload], the empty string where
    [relpath] raises. *)
Definition relative_or_empty (cwd start : string) (path : string) : string :=
  match posixpath.relpath cwd path start with
  | Ok r => r
  | Raise _ => ""
  end.

(** What ties the file objects to the attempts: attempts are numbered by
    the process starts, the first [k] file objects have been closed, in
    order and once each, and the only one that can be open is the one whose
    handler is registered. *)
Definition close_inv (w : World) : Prop :=
  attempts w = starts w
  ∧ ∃ k, closed_ids w = seq 0 k
         ∧ (∀ a, a ∈ closed w ↔ (a < k)%nat)
         ∧ (((∃ fd, handlers w = {[fd := on_subprocess_stdout_cb k k]})
             ∧ S k = starts w)
            ∨ (handlers w = ∅ ∧ k = starts w)).

(** What one callback does to the counter, to the error sink, to the
    retries scheduled and to the failures reported: nothing, or one more
    failed attempt, which is retried or not. *)
Definition counts_step (t : Task) (n : Z) (w w' : World) : Prop :=
  (tries w' = Some (VInt n) ∧ errors_logged w' = errors_logged w
   ∧ failures w' = failures w ∧ retries w' = retries w)
  ∨ (tries w' = Some (VInt (n + 1)) ∧ errors_logged w' = S (errors_logged w)
     ∧ ∃ c, (may_retry t (n + 1) c = true
             ∧ retries w' = S (retries w) ∧ failures w' = failures w)
            ∨ (may_retry t (n + 1) c = false
               ∧ retries w' = retries w
               ∧ (failures w' ≤ S (failures w))%nat)).

(** One poll that finds the child still running, and its timeout fired. *)
Definition polled_once (pipe : nat) (w : World) : World :=
  set_timeouts []
    (do_add_timeout (milliseconds 250) (wait_for_end_cb pipe)
       (emit (poll pipe) w)).

(** A readable batch. *)
Definition readable (fd : Z) (batch : Z * string) : io_event :=
  ready fd batch.1 batch.2 None.

(** An item whose first attempt is running: the handler of attempt 0 is
    registered on descriptor 5. *)
Definition attached : World :=
  set_handlers {[5 := on_subprocess_stdout_cb 0 0]}
    (set_attempts 1 (set_item "tries" (VInt 1) item1)).

(** [k] attempts that exit with [code], each followed by the next timeout. *)
Definition failing (fd code : Z) (k : nat) : list io_event :=
  mjoin (replicate k [exits fd "" code; timer fd None]).

(** * Properties *)

(** ** Bookkeeping *)

Lemma outcomes_emit c w :
  outcomes (emit c w) = outcomes w ++ (if is_outcome c then [c] else []).
Proof.
  unfold outcomes; simpl. rewrite List.filter_app. simpl.
  by destruct (is_outcome c).
Qed.

Lemma starts_emit c w :
  starts (emit c w) = (starts w + (if is_start c then 1 else 0))%nat.
Proof.
  unfold starts; simpl. rewrite List.filter_app, length_app. simpl.
  by destruct (is_start c).
Qed.

Lemma retries_emit c w :
  retries (emit c w) = (retries w + (if is_retry c then 1 else 0))%nat.
Proof.
  unfold retries; simpl. rewrite List.filter_app, length_app. simpl.
  by destruct (is_retry c).
Qed.

Lemma get_int_tries w n : tries w = Some (VInt n) → get_int "tries" w = Ok n.
Proof. unfold tries, get_int. by intros ->. Qed.

Lemma get_int_set_item k n w : get_int k (set_item k (VInt n) w) = Ok n.
Proof. unfold get_int; simpl. by rewrite lookup_insert_eq. Qed.

Lemma handle_process_error_eq t exit_code n w :
  tries w = Some (VInt n) →
  handle_process_error t exit_code w =
    let w1 := counted t exit_code n w in
    if may_retry t (n + 1) exit_code then
      if timedelta_in_range (retry_delay t) then
        Ok (do_add_timeout (seconds (retry_delay t)) process_cb
              (emit (log_output (retrying_line t w)) w1))
      else Raise OverflowError
    else match on_error t with
         | None => Raise (AttributeError "on_error")
         | Some true => Ok (emit fail_item (emit (log_output (failed_line t w)) w1))
         | Some false => Ok w1
         end.
Proof.
  intros Hn. unfold handle_process_error.
  rewrite (get_int_tries _ _ Hn). cbn [bind].
  assert (Hg : ∀ c1 c2 w0, get_int "tries"
            (emit c1 (emit c2 (set_item "tries" (VInt (n + 1)) w0))) = Ok (n + 1)).
  { intros. unfold get_int; simpl. by rewrite lookup_insert_eq. }
  rewrite Hg. cbn [bind]. unfold timedelta_seconds.
  destruct (may_retry t (n + 1) exit_code); [|reflexivity].
  destruct (timedelta_in_range (retry_delay t)); reflexivity.
Qed.

(** ** Accepted exit codes *)

(** C10.  Handling an accepted exit code returns normally, appends the
    completion line and the call of [complete_item] to what the task has
    done, and changes nothing else: every key of the item, [tries] among
    them, keeps its value, and nothing is registered with or removed from
    the loop. *)
Theorem handle_process_result_frame (t : Task) (exit_code : Z) (w : World) :
  ∃ w', handle_process_result t exit_code w = Ok w'
        ∧ item w' = item w
        ∧ tries w' = tries w
        ∧ calls w' = calls w ++ [log_output (finished_line t w); complete_item]
        ∧ closed w' = closed w
        ∧ handlers w' = handlers w
        ∧ timeouts w' = timeouts w
        ∧ attempts w' = attempts w.
Proof.
  eexists. split; [reflexivity|]. simpl.
  rewrite <- app_assoc. by repeat split.
Qed.

(** C4.  When the exit status found by [wait_for_end] is in the accept set,
    the call returns normally having made exactly these calls: the poll, one
    completion line to the output log, and [complete_item] once.  So one
    outcome is added, and it is a completion; no retry is scheduled and no
    timeout is added. *)
Theorem accepted_exit_completes (t : Task) (pipe : nat) (code : Z) (w : World) :
  code ∈ accept_on_exit_code t →
  ∃ w', wait_for_end t pipe (Some code) w = Ok w'
        ∧ calls w' = calls w ++ [poll pipe; log_output (finished_line t w);
                                 complete_item]
        ∧ outcomes w' = outcomes w ++ [complete_item]
        ∧ retries w' = retries w
        ∧ timeouts w' = timeouts w.
Proof.
  intros Hin. unfold wait_for_end.
  rewrite (bool_decide_eq_true_2 _ Hin).
  eexists. split; [reflexivity|].
  rewrite !outcomes_emit, !retries_emit. simpl.
  rewrite <- !app_assoc, ?app_nil_r, ?Nat.add_0_r. by repeat split.
Qed.

Lemma accepted_exit_completes_witness :
  ∃ w', wait_for_end (job (Some true) (Some 1) None) 0 (Some 0) item1 = Ok w'
        ∧ calls w' = calls item1
            ++ [poll 0;
                log_output (finished_line (job (Some true) (Some 1) None) item1);
                complete_item]
        ∧ outcomes w' = outcomes item1 ++ [complete_item]
        ∧ retries w' = retries item1
        ∧ timeouts w' = timeouts item1.
Proof.
  apply (accepted_exit_completes (job (Some true) (Some 1) None) 0 0 item1).
  simpl. set_solver.
Defined.

(** ** The readiness callback *)

(** C7.  In an invocation that carries the hang-up condition, on a master
    file object that is still open, the callback first reads and logs (when
    the readable condition is set too: [m.read()], then [log_output] of what
    it returned), and only then closes [m], removes the handler and goes on
    as [wait_for_end], whose first call is the poll.  Nothing comes between
    the start of the callback and the read, and the close comes after the
    log call. *)
Theorem hangup_after_drain (t : Task) (m pipe : nat) (fd events : Z)
    (data : string) (returncode : option Z) (w : World) :
  m ∉ closed w →
  Z.land events _EPOLLHUP > 0 →
  ∃ w1,
    on_subprocess_stdout t m pipe fd events data returncode w
      = wait_for_end t pipe returncode w1
    ∧ calls w1 = calls w
        ++ (if Z.land events _EPOLLIN =? 0 then []
            else [m_read m; log_output data])
        ++ [m_close m; remove_handler fd]
    ∧ calls (emit (poll pipe) w1) = calls w
        ++ (if Z.land events _EPOLLIN =? 0 then []
            else [m_read m; log_output data])
        ++ [m_close m; remove_handler fd; poll pipe]
    ∧ m ∈ closed w1
    ∧ handlers w1 = delete fd (handlers w)
    ∧ item w1 = item w
    ∧ timeouts w1 = timeouts w.
Proof.
  intros Hopen Hhup. unfold on_subprocess_stdout, is_closed.
  rewrite (bool_decide_eq_false_2 _ Hopen).
  assert (Hgt : (Z.land events _EPOLLHUP >? 0) = true) by (apply Z.gtb_lt; lia).
  rewrite Hgt. cbn [negb andb].
  destruct (Z.land events _EPOLLIN =? 0); cbn [negb];
    eexists; (split; [reflexivity|]); simpl;
    rewrite <- ?app_assoc; simpl; repeat split; set_solver.
Qed.

Lemma hangup_after_drain_witness :
  ∃ w1,
    on_subprocess_stdout (job (Some true) (Some 1) None) 0 0 5 17
        "last words" (Some 0) item1
      = wait_for_end (job (Some true) (Some 1) None) 0 (Some 0) w1
    ∧ calls w1 = calls item1
        ++ (if Z.land 17 _EPOLLIN =? 0 then []
            else [m_read 0; log_output "last words"])
        ++ [m_close 0; remove_handler 5]
    ∧ calls (emit (poll 0) w1) = calls item1
        ++ (if Z.land 17 _EPOLLIN =? 0 then []
            else [m_read 0; log_output "last words"])
        ++ [m_close 0; remove_handler 5; poll 0]
    ∧ 0%nat ∈ closed w1
    ∧ handlers w1 = delete 5 (handlers item1)
    ∧ item w1 = item item1
    ∧ timeouts w1 = timeouts item1.
Proof.
  apply (hangup_after_drain (job (Some true) (Some 1) None)
           0 0 5 17 "last words" (Some 0) item1).
  - simpl. set_solver.
  - vm_compute. reflexivity.
Defined.

(** After the close, a notification without the hang-up condition does
    nothing at all: the read is guarded by [m.closed]. *)
Lemma closed_without_hangup_is_noop (t : Task) (m pipe : nat) (fd events : Z)
    (data : string) (returncode : option Z) (w : World) :
  m ∈ closed w →
  Z.land events _EPOLLHUP ≤ 0 →
  on_subprocess_stdout t m pipe fd events data returncode w = Ok w.
Proof.
  intros Hcl Hno. unfold on_subprocess_stdout, is_closed.
  rewrite (bool_decide_eq_true_2 _ Hcl). cbn [negb andb].
  destruct (Z.gtb_spec (Z.land events _EPOLLHUP) 0); [lia | done].
Qed.

(** After the close, no invocation reads or logs data, whatever the
    conditions it carries. *)
Lemma closed_never_reads (t : Task) (m pipe : nat) (fd events : Z)
    (data : string) (returncode : option Z) (w : World) :
  m ∈ closed w →
  on_subprocess_stdout t m pipe fd events data returncode w
  = if Z.land events _EPOLLHUP >? 0
    then wait_for_end t pipe returncode (do_remove_handler fd (do_close m w))
    else Ok w.
Proof.
  intros Hcl. unfold on_subprocess_stdout, is_closed.
  by rewrite (bool_decide_eq_true_2 _ Hcl).
Qed.

(** Only the read is guarded by [m.closed].  Were the callback called by
    hand with the hang-up condition after it has closed [m] and the item has
    been completed, it would close, remove the handler and poll once more,
    and classify the exit status a second time.  The loop never makes this
    call: the handler is removed by the invocation that closes [m]. *)
Remark hangup_by_hand_repeats :
  ∃ w1 w2,
    run (job (Some true) (Some 1) None) 5 [exits 5 "done" 0] item1 = Ok w1
    ∧ is_closed 0 w1 = true
    ∧ outcomes w1 = [complete_item]
    ∧ on_subprocess_stdout (job (Some true) (Some 1) None) 0 0 5 _EPOLLHUP
        "" (Some 0) w1 = Ok w2
    ∧ calls w2 = calls w1
        ++ [m_close 0; remove_handler 5; poll 0;
            log_output (finished_line (job (Some true) (Some 1) None) item1);
            complete_item]
    ∧ outcomes w2 = [complete_item; complete_item].
Proof.
  do 2 eexists.
  split; [vm_compute; reflexivity|].
  split; [vm_compute; reflexivity|].
  split; [vm_compute; reflexivity|].
  split; [vm_compute; reflexivity|].
  split; vm_compute; reflexivity.
Qed.

(** ** The run invariant *)

Arguments starting_line : simpl never.
Arguments finished_line : simpl never.
Arguments returned_line : simpl never.
Arguments retrying_line : simpl never.
Arguments failed_line : simpl never.

Ltac obs :=
  cbn [in_phase tries_ahead retry_pending] in *;
  unfold do_add_timeout, do_add_handler, do_remove_handler, do_close, counted,
    outcomes, starts, retries, tries in *;
  simpl in *;
  rewrite ?List.filter_app, ?length_app in *;
  simpl in *;
  rewrite ?app_nil_r in *.

Lemma process_obs t fd w w' :
  process t fd w = Ok w' →
  handlers w' = <[fd := on_subprocess_stdout_cb (attempts w) (attempts w)]> (handlers w)
  ∧ timeouts w' = timeouts w
  ∧ item w' = item w
  ∧ outcomes w' = outcomes w
  ∧ starts w' = S (starts w)
  ∧ retries w' = retries w.
Proof.
  unfold process. cbn zeta.
  destruct (stdin_data t _) as [data|e]; cbn [bind]; [|done].
  intros [= <-]. obs. repeat split; first [done | lia].
Qed.

Lemma may_retry_empty_set t n c :
  retry_on_exit_code t = Some [] → may_retry t n c = false.
Proof.
  intros H. unfold may_retry. rewrite H.
  rewrite bool_decide_eq_false_2 by set_solver. apply andb_false_r.
Qed.

(** Where [wait_for_end] leaves an item whose attempt has hung up. *)
Lemma may_retry_max_tries t n c m :
  max_tries t = Some m → may_retry t n c = true → n < m.
Proof.
  unfold may_retry. intros -> [H _]%andb_true_iff. by apply Z.ltb_lt.
Qed.

Lemma wait_for_end_phase t pipe rc w w' n :
  tries w = Some (VInt n) →
  handlers w = ∅ → timeouts w = [] → outcomes w = [] →
  wait_for_end t pipe rc w = Ok w' →
  starts w' = starts w
  ∧ ∃ ph, in_phase ph w'
          ∧ ph ≠ Running
          ∧ tries w' = Some (VInt (n + tries_ahead ph))
          ∧ retries w' = (retries w + retry_pending ph)%nat
          ∧ allowed t n ph.
Proof.
  intros Hn Hh Ht Ho. unfold wait_for_end.
  assert (Hfin : ∀ ph w1,
    starts w1 = starts w →
    in_phase ph w1 →
    ph ≠ Running →
    tries w1 = Some (VInt (n + tries_ahead ph)) →
    retries w1 = (retries w + retry_pending ph)%nat →
    allowed t n ph →
    starts w1 = starts w
    ∧ ∃ ph, in_phase ph w1
            ∧ ph ≠ Running
            ∧ tries w1 = Some (VInt (n + tries_ahead ph))
            ∧ retries w1 = (retries w + retry_pending ph)%nat
            ∧ allowed t n ph) by eauto 10.
  destruct rc as [code|].
  - destruct (bool_decide (code ∈ accept_on_exit_code t)).
    + intros [= <-]. apply (Hfin Completed); obs;
        rewrite ?Ho, ?Ht, ?Z.add_0_r; repeat split; try done; lia.
    + rewrite (handle_process_error_eq t code n) by (by obs).
      cbn zeta. destruct (may_retry t (n + 1) code) eqn:Hr.
      * destruct (timedelta_in_range (retry_delay t)); [|done].
        intros [= <-]. apply (Hfin Retrying); obs;
          rewrite ?Ho, ?Ht, ?lookup_insert_eq; repeat split; eauto; try lia.
        -- intros He. by rewrite (may_retry_empty_set _ _ _ He) in Hr.
        -- intros m Hm. eapply may_retry_max_tries; eauto.
      * destruct (on_error t) as [[|]|] eqn:Hoe; [| |done]; intros [= <-].
        -- apply (Hfin Failed); obs;
             rewrite ?Ho, ?Ht, ?lookup_insert_eq; repeat split; try done; lia.
        -- apply (Hfin Dropped); obs;
             rewrite ?Ho, ?Ht, ?lookup_insert_eq; repeat split; try done; lia.
  - intros [= <-]. apply (Hfin Polling); obs;
      rewrite ?Ho, ?Ht, ?Z.add_0_r; repeat split; eauto; try done; lia.
Qed.

Lemma enqueue_inv t fd fields descr cwd w :
  enqueue t fd (fresh fields descr cwd) = Ok w →
  in_phase Running w ∧ tries w = Some (VInt 1) ∧ starts w = 1%nat
  ∧ retries w = 0%nat.
Proof.
  unfold enqueue. cbn zeta. intros H.
  apply process_obs in H as (Hh & Ht & Hi & Ho & Hs & Hr).
  obs. rewrite Hh, Ht, Ho, Hi, Hs, Hr, lookup_insert_eq, insert_empty.
  repeat split; eauto.
Qed.

(** The state after a classification, from the state before the hang-up. *)
Lemma classified_inv t w w' ph' n :
  (1 ≤ starts w)%nat →
  n = Z.of_nat (starts w) →
  (retries w + 1 = starts w)%nat →
  (retry_on_exit_code t = Some [] → retries w = 0%nat) →
  (∀ m, max_tries t = Some m → Z.of_nat (starts w) ≤ Z.max 1 (m - 1)) →
  starts w' = starts w →
  in_phase ph' w' →
  tries w' = Some (VInt (n + tries_ahead ph')) →
  retries w' = (retries w + retry_pending ph')%nat →
  allowed t n ph' →
  run_inv t w' ph'.
Proof.
  intros H1 -> Hre Hemp Hmax Hs Hph Htr Hre' Hal.
  split; rewrite ?Hs, ?Hre'; try done; try lia.
  - intros He. specialize (Hemp He).
    destruct ph'; simpl in *; try lia. by destruct Hal.
  - intros m Hm. specialize (Hmax m Hm).
    destruct ph'; simpl in *; try lia.
    destruct Hal as [_ Hlt]. specialize (Hlt m Hm). lia.
  - intros ->. done.
Qed.

(** Every callback the loop makes keeps the run in one of the six states,
    with the counters in step. *)
Lemma loop_step_inv t e w w' ph :
  run_inv t w ph → loop_step t e w = Ok w' → ∃ ph', run_inv t w' ph'.
Proof.
  intros Hinv Hstep.
  destruct Hinv as [Hph Htr Hre H1 Hemp Hmax Hdr] eqn:E. clear E.
  assert (Hsame : ∃ ph', run_inv t w ph') by (exists ph; by split).
  destruct e as [fd events data rc | fd rc]; simpl in Hstep.
  - destruct (handlers w !! fd) as [[| |m pipe]|] eqn:Hl;
      try (injection Hstep as <-; done).
    destruct ph;
      try (destruct Hph as [Hh _]; rewrite Hh, lookup_empty in Hl; done).
    destruct Hph as ((fd0 & m0 & p0 & Hh) & Ht & Ho).
    rewrite Hh in Hl. apply lookup_singleton_Some in Hl as [-> [= -> ->]].
    unfold on_subprocess_stdout in Hstep.
    set (w1 := if negb (is_closed m w) && negb (Z.land events _EPOLLIN =? 0)
               then emit (log_output data) (emit (m_read m) w) else w) in Hstep.
    assert (Hw1 : handlers w1 = handlers w ∧ timeouts w1 = timeouts w
                 ∧ item w1 = item w ∧ outcomes w1 = outcomes w
                 ∧ starts w1 = starts w ∧ retries w1 = retries w).
    { subst w1. destruct (negb _ && negb _); obs; repeat split; lia. }
    destruct Hw1 as (Hh1 & Ht1 & Hi1 & Ho1 & Hs1 & Hr1).
    simpl in Hre, Hmax, Htr. rewrite Z.add_0_r in Htr. rewrite Nat.add_0_r in Hre.
    destruct (Z.land events _EPOLLHUP >? 0).
    + apply (wait_for_end_phase _ _ _ _ _ (Z.of_nat (starts w))) in Hstep
        as (Hs & ph' & Hph' & Hnr & Htr' & Hre' & Hal).
      * exists ph'.
        apply (classified_inv t w w' ph' (Z.of_nat (starts w))); try done.
        -- intros m' Hm'. specialize (Hmax m' Hm'). lia.
        -- rewrite Hs. obs. lia.
        -- rewrite Hre'. obs. lia.
      * obs. by rewrite Hi1.
      * obs. rewrite Hh1, Hh. apply delete_singleton_eq.
      * obs. by rewrite Ht1.
      * obs. by rewrite ?app_nil_r, Ho1.
    + injection Hstep as <-. exists Running.
      split; unfold tries in *; cbn [in_phase tries_ahead retry_pending];
        rewrite ?Hh1, ?Ht1, ?Hi1, ?Ho1, ?Hs1, ?Hr1, ?Hh, ?Z.add_0_r, ?Nat.add_0_r;
        try done.
      * repeat split; eauto.
      * intros m' Hm'. specialize (Hmax m' Hm'). lia.
  - destruct (timeouts w) as [|[d cb] rest] eqn:Ht;
      [injection Hstep as <-; done|].
    destruct ph; simpl in Hph;
      try (destruct Hph as (_ & Ht' & _); rewrite Ht' in Ht; done).
    + destruct Hph as (Hh & [pipe Ht'] & Ho). rewrite Ht' in Ht.
      injection Ht as <- <- <-.
      simpl in Hre, Hmax, Htr. rewrite Z.add_0_r in Htr. rewrite Nat.add_0_r in Hre.
      apply (wait_for_end_phase _ _ _ _ _ (Z.of_nat (starts w))) in Hstep
        as (Hs & ph' & Hph' & Hnr & Htr' & Hre' & Hal); try done.
      exists ph'.
      apply (classified_inv t w w' ph' (Z.of_nat (starts w))); try done.
      intros m' Hm'. specialize (Hmax m' Hm'). lia.
    + destruct Hph as (Hh & [d' Ht'] & Ho). rewrite Ht' in Ht.
      injection Ht as <- <- <-.
      apply process_obs in Hstep as (Hh' & Ht'' & Hi' & Ho' & Hs' & Hr').
      change (handlers (set_timeouts [] w)) with (handlers w) in Hh'.
      change (timeouts (set_timeouts [] w)) with (@nil (timedelta * callback)) in Ht''.
      change (item (set_timeouts [] w)) with (item w) in Hi'.
      change (outcomes (set_timeouts [] w)) with (outcomes w) in Ho'.
      change (starts (set_timeouts [] w)) with (starts w) in Hs'.
      change (retries (set_timeouts [] w)) with (retries w) in Hr'.
      simpl in Htr, Hre, Hmax.
      exists Running.
      split; unfold tries in *; cbn [in_phase tries_ahead retry_pending];
        rewrite ?Hh', ?Ht'', ?Hi', ?Ho', ?Hs', ?Hr', ?Htr, ?Hh, ?insert_empty;
        try done; try lia.
      * repeat split; eauto.
      * do 2 f_equal. lia.
      * intros m' Hm'. specialize (Hmax m' Hm'). lia.
Qed.

Lemma loop_inv t es : ∀ w w' ph,
  run_inv t w ph → loop t es w = Ok w' → ∃ ph', run_inv t w' ph'.
Proof.
  induction es as [|e es IH]; intros w w' ph Hinv Hrun; simpl in Hrun.
  - injection Hrun as <-. eauto.
  - destruct (loop_step t e w) as [w1|] eqn:Hs; cbn [bind] in Hrun; [|done].
    destruct (loop_step_inv _ _ _ _ _ Hinv Hs) as [ph1 H1]. eauto.
Qed.

Lemma run_run_inv t fd es fields descr cwd w :
  run t fd es (fresh fields descr cwd) = Ok w → ∃ ph, run_inv t w ph.
Proof.
  unfold run. destruct (enqueue _ _ _) as [w1|] eqn:He; cbn [bind]; [|done].
  apply loop_inv with (ph := Running).
  apply enqueue_inv in He as (Hph & Htr & Hs & Hr).
  split; rewrite ?Htr, ?Hs, ?Hr; try done; simpl; lia.
Qed.

(** The six states exclude one another. *)
Lemma in_phase_unique ph1 ph2 w : in_phase ph1 w → in_phase ph2 w → ph1 = ph2.
Proof.
  assert (Hne : ∀ fd cb, ({[fd := cb]} : gmap Z callback) ≠ ∅)
    by (intros; apply (map_non_empty_singleton (M := gmap Z))).
  destruct ph1, ph2; simpl; try done;
    intros (H1 & H2 & H3) (H1' & H2' & H3');
    repeat match goal with
           | H : ∃ _, _ |- _ => destruct H
           end;
    congruence.
Qed.

(** ** The attempt counter *)

(** C1, as amended.  [item["tries"]] is 1 when [enqueue] has started the
    first process.  In every state a run reaches, it is an integer tied to
    the number of process starts so far: equal to it while an attempt is
    running or its exit status is awaited, and once the item is completed;
    one more than it from the moment a non-accepted exit code has been
    handled, that is while a retry is scheduled and after the run has ended
    without completion. *)
Theorem tries_tracks_starts (t : Task) (fd : Z) (es : list io_event)
    (fields : gmap string value) (descr cwd : string) (w : World) :
  run t fd es (fresh fields descr cwd) = Ok w →
  (∃ w1, enqueue t fd (fresh fields descr cwd) = Ok w1
         ∧ tries w1 = Some (VInt 1) ∧ starts w1 = 1%nat)
  ∧ ∃ ph, in_phase ph w
          ∧ tries w = Some (VInt (Z.of_nat (starts w) + tries_ahead ph))
          ∧ (1 ≤ starts w)%nat.
Proof.
  intros Hrun. split.
  - unfold run in Hrun.
    destruct (enqueue _ _ _) as [w1|] eqn:He; cbn [bind] in Hrun; [|done].
    exists w1. apply enqueue_inv in He as (_ & ? & ? & _). done.
  - apply run_run_inv in Hrun as [ph [? ? ? ? ? ? ?]]. eauto.
Qed.

Lemma tries_tracks_starts_witness :
  ∃ w,
    run (job (Some true) (Some 3) None) 5
      [exits 5 "" 1; timer 5 None; exits 5 "oops" 7] item1 = Ok w
    ∧ (∃ w1, enqueue (job (Some true) (Some 3) None) 5 item1 = Ok w1
             ∧ tries w1 = Some (VInt 1) ∧ starts w1 = 1%nat)
    ∧ ∃ ph, in_phase ph w
            ∧ tries w = Some (VInt (Z.of_nat (starts w) + tries_ahead ph))
            ∧ (1 ≤ starts w)%nat.
Proof.
  eexists. split; [vm_compute; reflexivity|].
  apply (tries_tracks_starts (job (Some true) (Some 3) None) 5
           [exits 5 "" 1; timer 5 None; exits 5 "oops" 7] ∅ "item-1" "/").
  vm_compute; reflexivity.
Defined.

(** C1 as stated fails: with [max_tries = 3] and every exit code 1, the
    task fails the item after its second process start, and [tries] is 3
    there, not 2. *)
Lemma tries_counts_starts_counterexample :
  ∃ w,
    run (job (Some true) (Some 3) None) 5
      [exits 5 "" 1; timer 5 None; exits 5 "" 1] item1 = Ok w
    ∧ outcomes w = [fail_item]
    ∧ starts w = 2%nat
    ∧ tries w = Some (VInt 3)
    ∧ tries w ≠ Some (VInt (Z.of_nat (starts w))).
Proof.
  eexists. split; [vm_compute; reflexivity|].
  split; [vm_compute; reflexivity|].
  split; [vm_compute; reflexivity|].
  split; [vm_compute; reflexivity|].
  vm_compute. discriminate.
Qed.

(** With [max_tries = m] the task starts at most [m - 1] processes (one,
    when [m] is 1 or less): the counter is 1 at the first start and is
    incremented before it is compared with [max_tries]. *)
Lemma starts_bounded (t : Task) (fd : Z) (es : list io_event)
    (fields : gmap string value) (descr cwd : string) (w : World) (m : Z) :
  max_tries t = Some m →
  run t fd es (fresh fields descr cwd) = Ok w →
  Z.of_nat (starts w) ≤ Z.max 1 (m - 1).
Proof.
  intros Hm Hrun. apply run_run_inv in Hrun as [ph [_ _ _ _ _ Hmax _]].
  specialize (Hmax m Hm). lia.
Qed.

(** C2.  [max_tries=3], [accept_on_exit_code=[0]], [retry_on_exit_code]
    null, exit codes 1, 1, 0: the second exit code 1 brings [tries] to 3,
    which is not below [max_tries]; the item is failed and nothing is left
    registered with the loop, so the attempt that would exit with 0 is never
    started. *)
Theorem three_tries_scenario :
  ∃ w2 w,
    run (job (Some true) (Some 3) None) 5
      [exits 5 "" 1; timer 5 None; exits 5 "" 1] item1 = Ok w2
    ∧ at_rest w2
    ∧ run (job (Some true) (Some 3) None) 5
        [exits 5 "" 1; timer 5 None; exits 5 "" 1; timer 5 None; exits 5 "" 0]
        item1 = Ok w
    ∧ w = w2
    ∧ outcomes w = [fail_item]
    ∧ tries w = Some (VInt 3)
    ∧ starts w = 2%nat.
Proof.
  do 2 eexists.
  split; [vm_compute; reflexivity|].
  split; [split; vm_compute; reflexivity|].
  split; [vm_compute; reflexivity|].
  split; [reflexivity|].
  split; [vm_compute; reflexivity|].
  split; vm_compute; reflexivity.
Qed.

(** ** Retry and failure *)

(** With the empty retry set the first non-accepted exit code already adds
    no timeout, whatever [max_tries] is. *)
Lemma empty_retry_set_first_failure (t : Task) (exit_code n : Z) (w w' : World) :
  retry_on_exit_code t = Some [] →
  tries w = Some (VInt n) →
  handle_process_error t exit_code w = Ok w' →
  timeouts w' = timeouts w ∧ retries w' = retries w.
Proof.
  intros He Hn. rewrite (handle_process_error_eq _ _ _ _ Hn). cbn zeta.
  rewrite (may_retry_empty_set _ _ _ He).
  destruct (on_error t) as [[|]|]; [| |done]; intros [= <-]; obs; split;
    first [done | lia].
Qed.

(** C5.  With [retry_on_exit_code] the empty set, however the loop drives
    the item and whatever [max_tries] is, no retry timeout is ever added:
    the process is started once, by [enqueue], and the run is never in the
    state where a retry is scheduled. *)
Theorem empty_retry_set_never_retries (t : Task) (fd : Z) (es : list io_event)
    (fields : gmap string value) (descr cwd : string) (w : World) :
  retry_on_exit_code t = Some [] →
  run t fd es (fresh fields descr cwd) = Ok w →
  retries w = 0%nat ∧ starts w = 1%nat ∧ ¬ in_phase Retrying w.
Proof.
  intros He Hrun.
  apply run_run_inv in Hrun as [ph [Hph _ Hre H1 Hemp _ _]].
  specialize (Hemp He).
  assert (Hp : retry_pending ph = 0%nat) by lia.
  repeat split; try lia.
  intros Hr. rewrite (in_phase_unique _ _ _ Hph Hr) in Hp. done.
Qed.

Lemma empty_retry_set_never_retries_witness :
  ∃ w,
    run (job (Some true) None (Some [])) 5
      [exits 5 "" 1; timer 5 None; exits 5 "" 1] item1 = Ok w
    ∧ retries w = 0%nat ∧ starts w = 1%nat ∧ ¬ in_phase Retrying w.
Proof.
  eexists. split; [vm_compute; reflexivity|].
  apply (empty_retry_set_never_retries (job (Some true) None (Some [])) 5
           [exits 5 "" 1; timer 5 None; exits 5 "" 1] ∅ "item-1" "/").
  - reflexivity.
  - vm_compute; reflexivity.
Defined.

(** When [self.on_error] is true, a non-accepted exit code that may not be
    retried is logged and the item is failed, once. *)
Lemma failure_reported (t : Task) (exit_code n : Z) (w : World) :
  tries w = Some (VInt n) →
  may_retry t (n + 1) exit_code = false →
  on_error t = Some true →
  ∃ w', handle_process_error t exit_code w = Ok w'
        ∧ calls w' = calls w
            ++ [log_output (returned_line t exit_code w); log_error exit_code;
                log_output (failed_line t w); fail_item]
        ∧ timeouts w' = timeouts w.
Proof.
  intros Hn Hr Ho. rewrite (handle_process_error_eq _ _ _ _ Hn). cbn zeta.
  rewrite Hr, Ho. eexists. split; [reflexivity|]. simpl.
  by rewrite <- !app_assoc.
Qed.

(** C6.  A non-accepted exit code with [max_tries] exhausted, on a task
    whose [on_error] is false: the exit code is logged, and then neither the
    failure line is logged nor [fail_item] called; no retry is scheduled
    either.  On a task that has no attribute [on_error] the callback raises
    at that point. *)
Theorem exhausted_tries_not_reported :
  ∃ w0 w,
    enqueue (job (Some false) (Some 1) None) 5 item1 = Ok w0
    ∧ may_retry (job (Some false) (Some 1) None) 2 1 = false
    ∧ on_subprocess_stdout (job (Some false) (Some 1) None) 0 0 5
        (Z.lor _EPOLLIN _EPOLLHUP) "" (Some 1) w0 = Ok w
    ∧ calls w = calls w0
        ++ [m_read 0; log_output ""; m_close 0; remove_handler 5; poll 0;
            log_output (returned_line (job (Some false) (Some 1) None) 1 item1);
            log_error 1]
    ∧ outcomes w = []
    ∧ bool_decide (failed_line (job (Some false) (Some 1) None) item1
                     ∈ output_log w) = false
    ∧ at_rest w
    ∧ on_subprocess_stdout (job None (Some 1) None) 0 0 5
        (Z.lor _EPOLLIN _EPOLLHUP) "" (Some 1) w0
      = Raise (AttributeError "on_error").
Proof.
  do 2 eexists.
  split; [vm_compute; reflexivity|].
  split; [vm_compute; reflexivity|].
  split; [vm_compute; reflexivity|].
  split; [vm_compute; reflexivity|].
  split; [vm_compute; reflexivity|].
  split; [vm_compute; reflexivity|].
  split; [split; vm_compute; reflexivity|].
  vm_compute; reflexivity.
Qed.

(** ** Terminal outcomes *)

(** X1.  However the loop drives the item, at most one of [complete_item]
    and [fail_item] is called, and at most once. *)
Lemma at_most_one_outcome (t : Task) (fd : Z) (es : list io_event)
    (fields : gmap string value) (descr cwd : string) (w : World) :
  run t fd es (fresh fields descr cwd) = Ok w →
  outcomes w = [] ∨ outcomes w = [complete_item] ∨ outcomes w = [fail_item].
Proof.
  intros Hrun. apply run_run_inv in Hrun as [ph [Hph _ _ _ _ _ _]].
  destruct ph; simpl in Hph; tauto.
Qed.

(** X2.  When [self.on_error] is true, a run that has come to rest (no
    handler registered, no timeout pending) has reported exactly one
    outcome. *)
Lemma one_outcome_at_rest (t : Task) (fd : Z) (es : list io_event)
    (fields : gmap string value) (descr cwd : string) (w : World) :
  on_error t = Some true →
  run t fd es (fresh fields descr cwd) = Ok w →
  at_rest w →
  outcomes w = [complete_item] ∨ outcomes w = [fail_item].
Proof.
  intros Hoe Hrun [Hh Ht].
  apply run_run_inv in Hrun as [ph [Hph _ _ _ _ _ Hdr]].
  destruct ph; simpl in Hph.
  - destruct Hph as ((fd0 & m & p & Hs) & _). rewrite Hs in Hh.
    by apply (map_non_empty_singleton (M := gmap Z)) in Hh.
  - destruct Hph as (_ & [p Hp] & _). congruence.
  - destruct Hph as (_ & [d Hd] & _). congruence.
  - tauto.
  - tauto.
  - specialize (Hdr eq_refl). congruence.
Qed.

(** X3.  Each poll that finds an exit status classifies it once: an accepted
    code gives one call of [complete_item] and no [log_error]; any other
    code one [log_error] and no [complete_item].  A poll that finds none
    gives neither, and one timeout of 250 ms. *)
Lemma classified_once (t : Task) (pipe : nat) (rc : option Z) (n : Z)
    (w w' : World) :
  tries w = Some (VInt n) →
  wait_for_end t pipe rc w = Ok w' →
  ∃ new, calls w' = calls w ++ poll pipe :: new
    ∧ match rc with
      | None => new = [add_timeout (milliseconds 250) (wait_for_end_cb pipe)]
      | Some code =>
          if bool_decide (code ∈ accept_on_exit_code t)
          then new = [log_output (finished_line t w); complete_item]
          else ∃ rest, new = log_output (returned_line t code w)
                               :: log_error code :: rest
                       ∧ Forall (λ c, c ≠ complete_item
                                      ∧ ∀ x, c ≠ log_error x) rest
      end.
Proof.
  intros Hn. unfold wait_for_end. destruct rc as [code|].
  - destruct (bool_decide (code ∈ accept_on_exit_code t)).
    + intros [= <-]. eexists. simpl. rewrite <- !app_assoc. done.
    + rewrite (handle_process_error_eq t code n) by (by obs). cbn zeta.
      destruct (may_retry _ _ _);
        [destruct (timedelta_in_range (retry_delay t)); [|done]
        |destruct (on_error t) as [[|]|]; [| |done]];
        intros [= <-]; eexists; simpl; rewrite <- !app_assoc;
        (split; [reflexivity|]); eexists; (split; [reflexivity|]);
        repeat constructor; done.
  - intros [= <-]. eexists. simpl. rewrite <- !app_assoc. done.
Qed.

(** C3.  A run that ends with no outcome at all: the exit code is neither
    accepted nor in the retry set, and [on_error] is false.  The exit
    status was classified once ([log_error] was called once), nothing is
    left registered with the loop, and neither [complete_item] nor
    [fail_item] has been called. *)
Theorem run_ends_without_outcome :
  ∃ w,
    run (job (Some false) (Some 5) (Some [1])) 5
      [exits 5 "partial" 2; timer 5 None] item1 = Ok w
    ∧ at_rest w
    ∧ outcomes w = []
    ∧ List.filter (λ c, match c with log_error _ => true | _ => false end)
        (calls w) = [log_error 2].
Proof.
  eexists.
  split; [vm_compute; reflexivity|].
  split; [split; vm_compute; reflexivity|].
  split; vm_compute; reflexivity.
Qed.

(** ** The file list of RsyncUpload *)

Example relpath_example :
  posixpath.relpath "/data/warrior" "a/b.txt" "a/" = Ok "b.txt"
  ∧ posixpath.relpath "/data/warrior" "../x//y/./z" "a/" = Ok "../../x/y/z"
  ∧ posixpath.relpath "/" "a" "a/" = Ok "."
  ∧ posixpath.relpath "//srv/" "/a/b" "../../c" = Ok "../a/b".
Proof. vm_compute. done. Qed.

Local Arguments String.append : simpl nomatch.

Lemma append_assoc (a b c : string) : (a +:+ b) +:+ c = a +:+ (b +:+ c).
Proof. induction a as [|x a IH]; simpl; [done | by rewrite IH]. Qed.

Lemma concat_empty_cons (x : string) (xs : list string) :
  String.concat "" (x :: xs) = x +:+ String.concat "" xs.
Proof.
  destruct xs as [|y ys]; simpl; [|done].
  induction x as [|c x IH]; simpl; [done | by rewrite <- IH].
Qed.

Lemma stdin_data_lines cwd base (paths : list string) :
  (lines ←! mapM (λ p, r ←! posixpath.relpath cwd p base; Ok (r +:+ nl)) paths;
   Ok (String.concat "" lines))
  = relative_file_list cwd base paths.
Proof.
  induction paths as [|p ps IH]; [done|].
  cbn [mapM relative_file_list]. rewrite <- IH.
  destruct (posixpath.relpath cwd p base) as [r|e]; cbn [bind]; [|done].
  destruct (mapM _ ps) as [lines|e]; cbn [bind]; [|done].
  by rewrite concat_empty_cons, append_assoc.
Qed.

Lemma mapM_map {A B C} (f : B → Res C) (g : A → B) (l : list A) :
  mapM f (map g l) = mapM (λ x, f (g x)) l.
Proof. induction l as [|x l IH]; simpl; [done | by rewrite IH]. Qed.

Section relpath.
Import posixpath.

Lemma split_not_nil s : split sep s ≠ [].
Proof.
  destruct s as [|a s]; simpl; [done|].
  destruct (Ascii.eqb a sep); [done|]. by destruct (split sep s).
Qed.

Lemma split_app_sep s1 s2 :
  split sep (s1 +:+ String sep s2) = split sep s1 ++ split sep s2.
Proof.
  induction s1 as [|a s1 IH]; simpl.
  - done.
  - rewrite IH. destruct (Ascii.eqb a sep); [done|].
    pose proof (split_not_nil s1). by destruct (split sep s1).
Qed.

Lemma split_whole s : Forall whole (split sep s).
Proof.
  induction s as [|a s IH]; simpl.
  - by constructor.
  - destruct (Ascii.eqb a sep) eqn:Ha.
    + by constructor.
    + pose proof (split_not_nil s).
      destruct (split sep s) as [|x xs]; [done|].
      inversion IH as [|? ? Hx Hxs]; subst. constructor; [|done].
      unfold whole in *. simpl. by rewrite Ha, Hx.
Qed.

Lemma endswith_sep_inv s :
  endswith_sep s = true → ∃ s', s = s' +:+ String sep "".
Proof.
  induction s as [|a s IH]; simpl; [done|].
  destruct s as [|b s].
  - intros ->%Ascii.eqb_eq. by exists "".
  - intros [s' Hs']%IH. exists (String a s'). simpl. by rewrite <- Hs'.
Qed.

(** What [cwd] contributes to the components of a relative path. *)
Lemma split_join2 cwd :
  ∃ pre, ∀ p, startswith_sep p = false →
    split sep (join2 cwd p) = pre ++ split sep p.
Proof.
  destruct (String.eqb cwd "") eqn:He.
  - apply String.eqb_eq in He as ->. exists []. intros p Hp.
    unfold join2. by rewrite Hp.
  - destruct (endswith_sep cwd) eqn:Hs.
    + destruct (endswith_sep_inv _ Hs) as [s' ->].
      exists (split sep s'). intros p Hp. unfold join2.
      rewrite Hp, He, Hs. cbn [orb]. rewrite append_assoc. simpl.
      apply split_app_sep.
    + exists (split sep cwd). intros p Hp. unfold join2.
      rewrite Hp, He, Hs. cbn [orb]. simpl. apply split_app_sep.
Qed.

Lemma startswith_join2 cwd p :
  startswith_sep p = false →
  startswith_sep (join2 cwd p) = startswith_sep cwd.
Proof.
  intros Hp. unfold join2. rewrite Hp.
  destruct cwd as [|a cwd]; [simpl; by rewrite Hp|].
  change (String.eqb (String a cwd) "") with false. cbn [orb].
  by destruct (endswith_sep (String a cwd)).
Qed.

Lemma initial_slashes_zero s :
  Nat.eqb (initial_slashes s) 0 = negb (startswith_sep s).
Proof.
  destruct s as [|a [|b [|c s]]]; simpl; try done;
    destruct (Ascii.eqb a sep); try done;
    destruct (Ascii.eqb b sep); try done;
    destruct (Ascii.eqb c sep); done.
Qed.

Lemma initial_slashes_le s : (initial_slashes s ≤ 2)%nat.
Proof.
  destruct s as [|a [|b [|c s]]]; simpl; try lia;
    destruct (Ascii.eqb a sep); try lia;
    destruct (Ascii.eqb b sep); try lia;
    destruct (Ascii.eqb c sep); simpl; lia.
Qed.

Lemma norm_step_slashes n1 n2 acc comp :
  Nat.eqb n1 0 = Nat.eqb n2 0 → norm_step n1 acc comp = norm_step n2 acc comp.
Proof. intros H. unfold norm_step. by rewrite H. Qed.

Lemma fold_norm_step_slashes n1 n2 l : ∀ acc,
  Nat.eqb n1 0 = Nat.eqb n2 0 →
  fold_left (norm_step n1) l acc = fold_left (norm_step n2) l acc.
Proof.
  induction l as [|c l IH]; intros acc H; simpl; [done|].
  rewrite (norm_step_slashes n1 n2) by done. by apply IH.
Qed.

Lemma norm_step_plain n acc c : plain c → norm_step n acc c = acc ++ [c].
Proof.
  intros (_ & H1 & H2 & H3). unfold norm_step.
  apply String.eqb_neq in H1, H2, H3. by rewrite H1, H2, H3.
Qed.

Lemma norm_step_empty n acc : norm_step n acc "" = acc.
Proof. done. Qed.

Lemma removelast_Forall {A} (P : A → Prop) (l : list A) :
  Forall P l → Forall P (removelast l).
Proof.
  induction 1 as [|x l Hx Hl IH]; simpl; [done|].
  destruct l; [done|]. by constructor.
Qed.

Lemma fold_norm_step_kept n l : ∀ acc,
  Forall whole l → Forall kept acc →
  Forall kept (fold_left (norm_step n) l acc).
Proof.
  induction l as [|c l IH]; intros acc Hl Hacc; simpl; [done|].
  inversion Hl as [|? ? Hc Hl']; subst. apply IH; [done|].
  unfold norm_step.
  destruct (String.eqb c "") eqn:He; cbn [orb]; [done|].
  destruct (String.eqb c "."); cbn [orb]; [done|].
  destruct (negb _ || _ || _).
  - apply Forall_app. split; [done|]. constructor; [|done].
    split; [done|]. by apply String.eqb_neq.
  - by apply removelast_Forall.
Qed.

(** Splitting the joined components gives them back. *)
Lemma split_concat_kept new :
  Forall kept new →
  List.filter nonempty (split sep (String.concat "/" new)) = new.
Proof.
  induction 1 as [|c new [Hc Hne] Hnew IH]; [done|].
  assert (Hn : nonempty c = true).
  { unfold nonempty. apply negb_true_iff. by apply String.eqb_neq. }
  destruct new as [|c2 new].
  - simpl. rewrite Hc. simpl. by rewrite Hn.
  - change (String.concat "/" (c :: c2 :: new))
      with (c +:+ String sep (String.concat "/" (c2 :: new))).
    rewrite split_app_sep, List.filter_app, IH, Hc. simpl. by rewrite Hn.
Qed.

Lemma components_normpath s new :
  s ≠ "" →
  new = fold_left (norm_step (initial_slashes s)) (split sep s) [] →
  new ≠ [] →
  List.filter nonempty (split sep (normpath s)) = new.
Proof.
  intros Hs Hnew Hne. unfold normpath.
  apply String.eqb_neq in Hs. rewrite Hs. cbn zeta. rewrite <- Hnew.
  assert (Hk : Forall kept new).
  { rewrite Hnew. apply fold_norm_step_kept; [apply split_whole | done]. }
  assert (Hsp : List.filter nonempty
            (split sep (slashes_str (initial_slashes s) +:+ String.concat "/" new))
          = new).
  { pose proof (initial_slashes_le s) as Hle.
    destruct (initial_slashes s) as [|[|[|k]]]; [| | |lia]; simpl;
      by apply split_concat_kept. }
  destruct (String.eqb (slashes_str _ +:+ _) "") eqn:He; [|exact Hsp].
  apply String.eqb_eq in He. rewrite He in Hsp. simpl in Hsp. congruence.
Qed.

Lemma common_len_app S l1 l2 :
  common_len (S ++ l1) (S ++ l2) = (length S + common_len l1 l2)%nat.
Proof.
  induction S as [|x S IH]; simpl; [done|].
  by rewrite String.eqb_refl, IH.
Qed.

Lemma plain_not_abs c : plain c → startswith_sep c = false.
Proof.
  intros (Hw & Hne & _). destruct c as [|a c]; [done|]. simpl in *.
  destruct (Ascii.eqb a sep); [|done]. simpl in Hw. discriminate.
Qed.

Lemma startswith_app d x :
  d ≠ "" → startswith_sep (d +:+ x) = startswith_sep d.
Proof. by destruct d. Qed.

(** The components of a relative path under any working directory: what
    the working directory leaves, then those of the path. *)
Lemma components_under cwd :
  ∃ S, ∀ p l,
    startswith_sep p = false →
    split sep p = l →
    Forall (λ c, c = "" ∨ plain c) l →
    List.filter nonempty l ≠ [] →
    components cwd p = S ++ List.filter nonempty l.
Proof.
  destruct (split_join2 cwd) as [pre Hpre].
  exists (fold_left (norm_step (if startswith_sep cwd then 1%nat else 0%nat)) pre []).
  intros p l Hp Hl Hall Hne.
  unfold components, abspath, isabs, join. rewrite Hp. cbn [fold_left].
  assert (Hfold : ∀ n acc,
    fold_left (norm_step n) l acc = acc ++ List.filter nonempty l).
  { intros n. clear Hl Hne. induction Hall as [|c l Hc Hl IH]; intros acc.
    - by rewrite app_nil_r.
    - cbn [fold_left]. rewrite IH. destruct Hc as [->|Hc].
      + done.
      + rewrite (norm_step_plain _ _ _ Hc). destruct Hc as (_ & Hc & _).
        apply String.eqb_neq in Hc. unfold nonempty at 2. simpl.
        rewrite Hc. simpl. by rewrite <- app_assoc. }
  assert (Hnew : fold_left (norm_step (initial_slashes (join2 cwd p)))
                   (split sep (join2 cwd p)) []
                 = fold_left (norm_step (if startswith_sep cwd then 1%nat else 0%nat))
                     pre [] ++ List.filter nonempty l).
  { rewrite (Hpre p Hp), fold_left_app, Hl, Hfold. f_equal.
    apply fold_norm_step_slashes.
    rewrite initial_slashes_zero, (startswith_join2 _ _ Hp).
    by destruct (startswith_sep cwd). }
  apply components_normpath.
  - intros He. rewrite He in Hnew. simpl in Hnew.
    symmetry in Hnew. apply app_eq_nil in Hnew as [_ Hnew]. done.
  - by rewrite Hnew.
  - intros [_ He]%app_eq_nil. done.
Qed.

(** A file directly under the base directory is its own relative path,
    whatever the working directory is. *)
Lemma relpath_child cwd d f :
  plain d → plain f →
  relpath cwd (d +:+ "/" +:+ f) (d +:+ "/") = Ok f.
Proof.
  intros Hd Hf.
  assert (Hdne : d ≠ "") by (by destruct Hd as (_ & ? & _)).
  assert (Hfne : nonempty f = true).
  { destruct Hf as (_ & Hf & _). unfold nonempty.
    apply negb_true_iff. by apply String.eqb_neq. }
  assert (Hdn : nonempty d = true).
  { unfold nonempty. apply negb_true_iff. by apply String.eqb_neq. }
  destruct (components_under cwd) as [S HS].
  unfold relpath.
  assert (He : String.eqb (d +:+ "/" +:+ f) "" = false)
    by (apply String.eqb_neq; by destruct d).
  rewrite He.
  rewrite (HS (d +:+ "/") [d; ""]), (HS (d +:+ "/" +:+ f) [d; f]).
  - simpl. rewrite Hdn, Hfne.
    rewrite common_len_app. simpl common_len. rewrite String.eqb_refl.
    replace (length S + 1)%nat with (length (S ++ [d]))
      by (rewrite length_app; simpl; lia).
    rewrite Nat.sub_diag.
    replace (S ++ [d; f]) with ((S ++ [d]) ++ [f]) by (by rewrite <- app_assoc).
    by rewrite drop_app_length.
  - rewrite startswith_app by done. by apply plain_not_abs.
  - change (d +:+ "/" +:+ f) with (d +:+ String sep f).
    rewrite split_app_sep. destruct Hd as [-> _], Hf as [-> _]. done.
  - constructor; [by right|]. constructor; [by right|]. constructor.
  - simpl. by rewrite Hdn.
  - rewrite startswith_app by done. by apply plain_not_abs.
  - change (d +:+ "/") with (d +:+ String sep "").
    rewrite split_app_sep. destruct Hd as [-> _]. done.
  - constructor; [by right|]. constructor; [by left|]. constructor.
  - simpl. by rewrite Hdn.
Qed.

End relpath.

(** [relpath] raises only on the empty path. *)
Lemma relpath_total cwd path start :
  path ≠ "" → ∃ r, posixpath.relpath cwd path start = Ok r.
Proof.
  intros Hne%String.eqb_neq. unfold posixpath.relpath. rewrite Hne. cbn zeta.
  destruct (_ ++ _); eauto.
Qed.

(** C9.  The stdin content of [RsyncUpload] is the file list of the
    specification: for each file of the list, in order, its realized path
    made relative to [target_source_path], followed by a newline, all
    concatenated (and the error of [relpath], if a path is empty).  For the
    files [a/b.txt] and [a/c.txt] and [target_source_path = "a/"] it is the
    two lines [b.txt] and [c.txt], in every working directory. *)
Theorem rsync_stdin_data (base : option bool * string) (target : template)
    (files : list template) (target_source_path : string)
    (bwlimit : template) (max_tries : option Z) (w : World) :
  stdin_data (RsyncUpload base target files target_source_path bwlimit max_tries) w
    = relative_file_list (getcwd w) target_source_path
        (map (λ f, realize f (item w)) files)
  ∧ stdin_data (RsyncUpload base target [Literal "a/b.txt"; Literal "a/c.txt"]
                  "a/" bwlimit max_tries) w
    = Ok ("b.txt" +:+ nl +:+ "c.txt" +:+ nl).
Proof.
  assert (Hgen : ∀ fs tsp,
    stdin_data (RsyncUpload base target fs tsp bwlimit max_tries) w
    = relative_file_list (getcwd w) tsp (map (λ f, realize f (item w)) fs)).
  { intros fs tsp. unfold stdin_data. cbn [class RsyncUpload with_class].
    rewrite <- stdin_data_lines, mapM_map. done. }
  split; [apply Hgen|].
  rewrite Hgen. cbn [map realize relative_file_list].
  assert (Ha : plain "a") by (repeat split; done).
  assert (Hb : plain "b.txt") by (repeat split; done).
  assert (Hc : plain "c.txt") by (repeat split; done).
  pose proof (relpath_child (getcwd w) "a" "b.txt" Ha Hb) as Eb.
  pose proof (relpath_child (getcwd w) "a" "c.txt" Ha Hc) as Ec.
  change ("a" +:+ "/" +:+ "b.txt") with "a/b.txt" in Eb.
  change ("a" +:+ "/" +:+ "c.txt") with "a/c.txt" in Ec.
  change ("a" +:+ "/") with "a/" in Eb, Ec.
  rewrite Eb, Ec. done.
Qed.

(** * Further properties of the code *)

Lemma at_most_one_outcome_witness :
  ∃ w,
    run (job (Some true) (Some 3) None) 5
      [exits 5 "" 1; timer 5 None; exits 5 "" 0; exits 5 "" 0; timer 5 None]
      item1 = Ok w
    ∧ (outcomes w = [] ∨ outcomes w = [complete_item] ∨ outcomes w = [fail_item]).
Proof.
  eexists. split; [vm_compute; reflexivity|].
  apply (at_most_one_outcome (job (Some true) (Some 3) None) 5
           [exits 5 "" 1; timer 5 None; exits 5 "" 0; exits 5 "" 0; timer 5 None]
           ∅ "item-1" "/").
  vm_compute; reflexivity.
Defined.

Lemma one_outcome_at_rest_witness :
  ∃ w,
    run (job (Some true) (Some 1) None) 5 [exits 5 "" 3] item1 = Ok w
    ∧ (outcomes w = [complete_item] ∨ outcomes w = [fail_item]).
Proof.
  eexists. split; [vm_compute; reflexivity|].
  apply (one_outcome_at_rest (job (Some true) (Some 1) None) 5
           [exits 5 "" 3] ∅ "item-1" "/").
  - reflexivity.
  - vm_compute; reflexivity.
  - split; vm_compute; reflexivity.
Defined.

Lemma classified_once_witness :
  ∃ w w',
    enqueue (job (Some true) (Some 3) None) 5 item1 = Ok w
    ∧ wait_for_end (job (Some true) (Some 3) None) 0 (Some 4) w = Ok w'
    ∧ ∃ new, calls w' = calls w ++ poll 0 :: new
        ∧ if bool_decide (4 ∈ accept_on_exit_code (job (Some true) (Some 3) None))
          then new = [log_output (finished_line (job (Some true) (Some 3) None) w);
                      complete_item]
          else ∃ rest,
                 new = log_output (returned_line (job (Some true) (Some 3) None) 4 w)
                         :: log_error 4 :: rest
                 ∧ Forall (λ c, c ≠ complete_item ∧ ∀ x, c ≠ log_error x) rest.
Proof.
  do 2 eexists. split; [vm_compute; reflexivity|].
  split; [vm_compute; reflexivity|].
  eapply (classified_once (job (Some true) (Some 3) None) 0 (Some 4) 1).
  - vm_compute; reflexivity.
  - vm_compute; reflexivity.
Defined.

(** ** How many processes are started *)

(** X4.  With [max_tries = m], every run starts at least one process and at
    most [m - 1] (one, when [m] is 2 or less): [tries] is 1 at the first
    start and is incremented before it is compared with [max_tries]. *)
Theorem starts_between (t : Task) (fd : Z) (es : list io_event)
    (fields : gmap string value) (descr cwd : string) (w : World) (m : Z) :
  max_tries t = Some m →
  run t fd es (fresh fields descr cwd) = Ok w →
  1 ≤ Z.of_nat (starts w) ≤ Z.max 1 (m - 1).
Proof.
  intros Hm Hrun. apply run_run_inv in Hrun as [ph [_ _ _ H1 _ Hmax _]].
  specialize (Hmax m Hm). lia.
Qed.

Lemma starts_between_witness :
  ∃ w,
    run (job (Some true) (Some 2) None) 5
      [exits 5 "" 1; timer 5 None; exits 5 "" 1] item1 = Ok w
    ∧ 1 ≤ Z.of_nat (starts w) ≤ Z.max 1 (2 - 1).
Proof.
  eexists. split; [vm_compute; reflexivity|].
  apply (starts_between (job (Some true) (Some 2) None) 5
           [exits 5 "" 1; timer 5 None; exits 5 "" 1] ∅ "item-1" "/").
  - reflexivity.
  - vm_compute; reflexivity.
Defined.

(** X5.  Every process start after the first is the firing of a retry
    timeout, and every retry timeout starts at most one process: the number
    of starts is one more than the number of retries scheduled, less the one
    that is still pending. *)
Theorem starts_follow_retries (t : Task) (fd : Z) (es : list io_event)
    (fields : gmap string value) (descr cwd : string) (w : World) :
  run t fd es (fresh fields descr cwd) = Ok w →
  (in_phase Retrying w ∧ starts w = retries w)
  ∨ (¬ in_phase Retrying w ∧ starts w = S (retries w)).
Proof.
  intros Hrun. apply run_run_inv in Hrun as [ph [Hph _ Hre _ _ _ _]].
  assert (Hcase : ph = Retrying ∨ ph ≠ Retrying)
    by (destruct ph; auto; right; done).
  destruct Hcase as [->|Hne].
  - left. split; [done|]. simpl in Hre. lia.
  - right. split.
    + intros Hr. by rewrite (in_phase_unique _ _ _ Hph Hr) in Hne.
    + destruct ph; simpl in Hre; try done; lia.
Qed.

Lemma starts_follow_retries_witness :
  ∃ w,
    run (job (Some true) None None) 5
      [exits 5 "" 1; timer 5 None; exits 5 "" 1] item1 = Ok w
    ∧ ((in_phase Retrying w ∧ starts w = retries w)
       ∨ (¬ in_phase Retrying w ∧ starts w = S (retries w))).
Proof.
  eexists. split; [vm_compute; reflexivity|].
  apply (starts_follow_retries (job (Some true) None None) 5
           [exits 5 "" 1; timer 5 None; exits 5 "" 1] ∅ "item-1" "/").
  vm_compute; reflexivity.
Defined.

(** ** The counter and the failures it counts *)

Ltac cnt :=
  unfold do_add_timeout, do_add_handler, do_remove_handler, do_close, counted,
    polled_once, errors_logged, failures, tries in *;
  simpl in *;
  rewrite ?List.filter_app, ?length_app in *;
  simpl in *;
  rewrite ?Nat.add_0_r in *.

Lemma process_counts t fd w w' :
  process t fd w = Ok w' →
  item w' = item w ∧ errors_logged w' = errors_logged w
  ∧ failures w' = failures w ∧ retries w' = retries w.
Proof.
  unfold process. cbn zeta.
  destruct (stdin_data t _) as [data|e]; cbn [bind]; [|done].
  intros [= <-]. unfold retries. cnt. done.
Qed.

Lemma wait_for_end_counts t pipe rc w w' n :
  tries w = Some (VInt n) →
  wait_for_end t pipe rc w = Ok w' → counts_step t n w w'.
Proof.
  intros Hn. unfold wait_for_end, counts_step. destruct rc as [code|].
  - destruct (bool_decide (code ∈ accept_on_exit_code t)).
    + intros [= <-]. left. unfold retries. cnt. done.
    + rewrite (handle_process_error_eq t code n) by (by cnt). cbn zeta.
      destruct (may_retry t (n + 1) code) eqn:Hr.
      * destruct (timedelta_in_range (retry_delay t)); [|done].
        intros [= <-]. right. unfold retries. cnt. rewrite lookup_insert_eq.
        repeat split; try lia. exists code. left. repeat split; try done; lia.
      * destruct (on_error t) as [[|]|]; [| |done]; intros [= <-]; right;
          unfold retries; cnt; rewrite lookup_insert_eq;
          (repeat split; try lia); exists code; right;
          repeat split; try done; lia.
  - intros [= <-]. left. unfold retries. cnt. done.
Qed.

Lemma loop_step_counts t e w w' n :
  tries w = Some (VInt n) →
  loop_step t e w = Ok w' → counts_step t n w w'.
Proof.
  intros Hn Hstep.
  assert (Hsame : counts_step t n w w) by (left; done).
  destruct e as [fd events data rc | fd rc]; simpl in Hstep.
  - destruct (handlers w !! fd) as [[| |m pipe]|];
      try (injection Hstep as <-; done).
    unfold on_subprocess_stdout in Hstep.
    set (w1 := if negb (is_closed m w) && negb (Z.land events _EPOLLIN =? 0)
               then emit (log_output data) (emit (m_read m) w) else w) in Hstep.
    assert (Hw1 : tries w1 = tries w ∧ errors_logged w1 = errors_logged w
                  ∧ failures w1 = failures w ∧ retries w1 = retries w).
    { subst w1. destruct (negb _ && negb _); unfold retries; cnt; done. }
    destruct Hw1 as (Ht1 & He1 & Hf1 & Hr1).
    destruct (Z.land events _EPOLLHUP >? 0).
    + apply (wait_for_end_counts _ _ _ _ _ n) in Hstep.
      * unfold counts_step, retries in *. cnt.
        rewrite He1, Hf1, Hr1 in Hstep. done.
      * cnt. by rewrite Ht1.
    + injection Hstep as <-. left. by rewrite Ht1, He1, Hf1, Hr1.
  - destruct (timeouts w) as [|[d cb] rest]; [injection Hstep as <-; done|].
    destruct cb as [|pipe|m pipe].
    + apply process_counts in Hstep as (Hi & He & Hf & Hr). left.
      unfold tries in *. rewrite Hi, He, Hf, Hr. done.
    + apply (wait_for_end_counts _ _ _ _ _ n) in Hstep; done.
    + injection Hstep as <-. left. done.
Qed.

(** Along the loop the counter stays an integer, never decreases, and moves
    in step with the error sink. *)
Lemma loop_counts t es : ∀ w w' n,
  tries w = Some (VInt n) →
  loop t es w = Ok w' →
  ∃ n', tries w' = Some (VInt n') ∧ n ≤ n'
        ∧ n' - n = Z.of_nat (errors_logged w') - Z.of_nat (errors_logged w)
        ∧ ((∀ k c, may_retry t k c = true) →
           failures w' = failures w
           ∧ n' - n = Z.of_nat (retries w') - Z.of_nat (retries w)).
Proof.
  induction es as [|e es IH]; intros w w' n Hn Hrun; simpl in Hrun.
  - injection Hrun as <-. exists n. repeat split; try done; lia.
  - destruct (loop_step t e w) as [w1|] eqn:Hs; cbn [bind] in Hrun; [|done].
    apply (loop_step_counts _ _ _ _ n Hn) in Hs.
    destruct Hs as [(Ht & He & Hf & Hr)|(Ht & He & c & Hc)].
    + destruct (IH _ _ _ Ht Hrun) as (n' & ? & ? & ? & Hfa).
      exists n'. rewrite <- He, <- Hf, <- Hr. done.
    + destruct (IH _ _ _ Ht Hrun) as (n' & ? & ? & ? & Hfa).
      exists n'. split; [done|]. split; [lia|]. split; [lia|].
      intros Hall. destruct (Hfa Hall) as [Hf' Hr'].
      destruct Hc as [(_ & Hr & Hf)|(Hc & _)]; [|by rewrite Hall in Hc].
      split; lia.
Qed.

Lemma loop_app t es1 es2 w :
  loop t (es1 ++ es2) w = (w1 ←! loop t es1 w; loop t es2 w1).
Proof.
  revert w. induction es1 as [|e es1 IH]; intros w; simpl; [done|].
  destruct (loop_step t e w); cbn [bind]; [apply IH | done].
Qed.

Lemma enqueue_counts t fd fields descr cwd w :
  enqueue t fd (fresh fields descr cwd) = Ok w →
  tries w = Some (VInt 1) ∧ errors_logged w = 0%nat ∧ failures w = 0%nat
  ∧ retries w = 0%nat.
Proof.
  unfold enqueue. cbn zeta. intros H.
  apply process_counts in H as (Hi & He & Hf & Hr).
  unfold tries. rewrite Hi, He, Hf, Hr. unfold retries. cnt.
  by rewrite lookup_insert_eq.
Qed.

(** X6.  In every state a run reaches, [item["tries"]] is one more than the
    number of exit codes reported to [log_error]: the counter counts the
    failed attempts, from 1. *)
Theorem tries_counts_failures (t : Task) (fd : Z) (es : list io_event)
    (fields : gmap string value) (descr cwd : string) (w : World) :
  run t fd es (fresh fields descr cwd) = Ok w →
  tries w = Some (VInt (1 + Z.of_nat (errors_logged w))).
Proof.
  unfold run. destruct (enqueue _ _ _) as [w1|] eqn:He; cbn [bind]; [|done].
  apply enqueue_counts in He as (Ht & He & _ & _). intros Hrun.
  destruct (loop_counts _ _ _ _ _ Ht Hrun) as (n' & -> & _ & Hd & _).
  do 2 f_equal. lia.
Qed.

Lemma tries_counts_failures_witness :
  ∃ w,
    run (job (Some false) (Some 4) None) 5
      [exits 5 "" 1; timer 5 None; exits 5 "" 9; timer 5 None] item1 = Ok w
    ∧ tries w = Some (VInt (1 + Z.of_nat (errors_logged w))).
Proof.
  eexists. split; [vm_compute; reflexivity|].
  apply (tries_counts_failures (job (Some false) (Some 4) None) 5
           [exits 5 "" 1; timer 5 None; exits 5 "" 9; timer 5 None]
           ∅ "item-1" "/").
  vm_compute; reflexivity.
Defined.

(** X7.  [item["tries"]] never decreases while the loop drives the item:
    its value after more events is at least its value after fewer. *)
Theorem tries_monotone (t : Task) (fd : Z) (es1 es2 : list io_event)
    (fields : gmap string value) (descr cwd : string) (w1 w2 : World) :
  run t fd es1 (fresh fields descr cwd) = Ok w1 →
  run t fd (es1 ++ es2) (fresh fields descr cwd) = Ok w2 →
  ∃ n1 n2, tries w1 = Some (VInt n1) ∧ tries w2 = Some (VInt n2)
           ∧ 1 ≤ n1 ≤ n2.
Proof.
  unfold run. destruct (enqueue _ _ _) as [w0|] eqn:He; cbn [bind]; [|done].
  apply enqueue_counts in He as (Ht & _ & _ & _). intros H1 H2.
  rewrite loop_app, H1 in H2. cbn [bind] in H2.
  destruct (loop_counts _ _ _ _ _ Ht H1) as (n1 & Hn1 & Hle1 & _).
  destruct (loop_counts _ _ _ _ _ Hn1 H2) as (n2 & Hn2 & Hle2 & _).
  exists n1, n2. repeat split; try done; lia.
Qed.

Lemma tries_monotone_witness :
  ∃ w1 w2,
    run (job (Some true) None None) 5 [exits 5 "" 1] item1 = Ok w1
    ∧ run (job (Some true) None None) 5
        ([exits 5 "" 1] ++ [timer 5 None; exits 5 "" 1]) item1 = Ok w2
    ∧ ∃ n1 n2, tries w1 = Some (VInt n1) ∧ tries w2 = Some (VInt n2)
               ∧ 1 ≤ n1 ≤ n2.
Proof.
  do 2 eexists. split; [vm_compute; reflexivity|].
  split; [vm_compute; reflexivity|].
  apply (tries_monotone (job (Some true) None None) 5
           [exits 5 "" 1] [timer 5 None; exits 5 "" 1] ∅ "item-1" "/");
    vm_compute; reflexivity.
Defined.

(** X8.  A task with [max_tries = None] and [retry_on_exit_code = None]
    (the defaults of [RsyncUpload]) never fails an item: [fail_item] is not
    called in any run, every non-accepted exit code schedules a retry. *)
Theorem unlimited_retries_never_fail (t : Task) (fd : Z) (es : list io_event)
    (fields : gmap string value) (descr cwd : string) (w : World) :
  max_tries t = None →
  retry_on_exit_code t = None →
  run t fd es (fresh fields descr cwd) = Ok w →
  failures w = 0%nat ∧ retries w = errors_logged w.
Proof.
  intros Hm Hr. unfold run.
  destruct (enqueue _ _ _) as [w1|] eqn:He; cbn [bind]; [|done].
  apply enqueue_counts in He as (Ht & He & Hf & Hre). intros Hrun.
  destruct (loop_counts _ _ _ _ _ Ht Hrun) as (n' & _ & _ & Hd & Hall).
  destruct Hall as [Hf' Hr'].
  { intros k c. unfold may_retry. by rewrite Hm, Hr. }
  split; lia.
Qed.

Lemma unlimited_retries_never_fail_witness :
  ∃ w,
    run (RsyncUpload (Some true, "RsyncUpload") (Literal "rsync://host/module/")
           [Literal "data/a.warc.gz"] "data/" (Literal "0") None) 5
      [exits 5 "" 23; timer 5 None; exits 5 "" 12; timer 5 None] item1 = Ok w
    ∧ failures w = 0%nat ∧ retries w = errors_logged w.
Proof.
  eexists. split; [vm_compute; reflexivity|].
  apply (unlimited_retries_never_fail
           (RsyncUpload (Some true, "RsyncUpload") (Literal "rsync://host/module/")
              [Literal "data/a.warc.gz"] "data/" (Literal "0") None) 5
           [exits 5 "" 23; timer 5 None; exits 5 "" 12; timer 5 None]
           ∅ "item-1" "/").
  - reflexivity.
  - reflexivity.
  - vm_compute; reflexivity.
Defined.

(** ** Output and polling *)

Lemma output_log_emit c w :
  output_log (emit c w)
  = output_log w ++ match c with log_output s => [s] | _ => [] end.
Proof. unfold output_log; simpl. rewrite omap_app. by destruct c. Qed.

Lemma readable_batches_loop (t : Task) (fd : Z) (m pipe : nat)
    (batches : list (Z * string)) (w : World) :
  handlers w !! fd = Some (on_subprocess_stdout_cb m pipe) →
  m ∉ closed w →
  Forall (λ b, Z.land b.1 _EPOLLIN ≠ 0 ∧ Z.land b.1 _EPOLLHUP ≤ 0) batches →
  ∃ w', loop t (map (readable fd) batches) w = Ok w'
        ∧ calls w' = calls w
            ++ mjoin (map (λ b, [m_read m; log_output b.2]) batches)
        ∧ output_log w' = output_log w ++ map snd batches
        ∧ item w' = item w
        ∧ handlers w' = handlers w
        ∧ timeouts w' = timeouts w
        ∧ closed w' = closed w
        ∧ outcomes w' = outcomes w
        ∧ description w' = description w.
Proof.
  intros Hh Hopen Hall. revert w Hh Hopen.
  induction Hall as [|[events data] batches [Hin Hhup] _ IH]; intros w Hh Hopen.
  - exists w. simpl. by rewrite !app_nil_r.
  - cbn [map loop readable loop_step fst snd]. rewrite Hh.
    unfold on_subprocess_stdout, is_closed.
    rewrite (bool_decide_eq_false_2 _ Hopen).
    apply Z.eqb_neq in Hin. simpl in Hin. rewrite Hin. cbn [negb andb].
    destruct (Z.gtb_spec (Z.land events _EPOLLHUP) 0) as [Hgt|_];
      [simpl in Hhup; lia|].
    cbn [bind].
    destruct (IH (emit (log_output data) (emit (m_read m) w)))
      as (w' & Hrun & Hc & Ho & Hi & Hh' & Ht & Hcl & Hout & Hd); [done | done |].
    exists w'. rewrite Hrun, Hc, Ho, Hi, Hh', Ht, Hcl, Hout, Hd.
    rewrite !output_log_emit, !outcomes_emit. simpl.
    rewrite <- !app_assoc, ?app_nil_r. simpl. done.
Qed.

(** X9.  While the master file object is open, the readable batches that
    the loop delivers to the callback are read and logged one call each, in
    the order of delivery, and nothing else happens: the item's output log
    grows by exactly the batches, and the item, the registrations and the
    file object are as before. *)
Theorem batches_logged_in_order (t : Task) (fd : Z) (m pipe : nat)
    (batches : list (Z * string)) (w : World) :
  handlers w !! fd = Some (on_subprocess_stdout_cb m pipe) →
  m ∉ closed w →
  Forall (λ b, Z.land b.1 _EPOLLIN ≠ 0 ∧ Z.land b.1 _EPOLLHUP ≤ 0) batches →
  ∃ w', loop t (map (readable fd) batches) w = Ok w'
        ∧ calls w' = calls w
            ++ mjoin (map (λ b, [m_read m; log_output b.2]) batches)
        ∧ output_log w' = output_log w ++ map snd batches
        ∧ item w' = item w
        ∧ handlers w' = handlers w
        ∧ timeouts w' = timeouts w
        ∧ closed w' = closed w.
Proof.
  intros Hh Hopen Hall.
  destruct (readable_batches_loop t fd m pipe batches w Hh Hopen Hall)
    as (w' & ? & ? & ? & ? & ? & ? & ? & _).
  exists w'. done.
Qed.

Lemma batches_logged_in_order_witness :
  ∃ w', loop (job (Some true) (Some 1) None)
          (map (readable 5) [(1, "one "); (3, "two "); (1, "three")]) attached
        = Ok w'
        ∧ calls w' = calls attached
            ++ mjoin (map (λ b, [m_read 0; log_output b.2])
                        [(1, "one "); (3, "two "); (1, "three")])
        ∧ output_log w' = output_log attached
            ++ map snd [(1, "one "); (3, "two "); (1, "three")]
        ∧ item w' = item attached
        ∧ handlers w' = handlers attached
        ∧ timeouts w' = timeouts attached
        ∧ closed w' = closed attached.
Proof.
  apply (batches_logged_in_order (job (Some true) (Some 1) None) 5 0 0
           [(1, "one "); (3, "two "); (1, "three")] attached).
  - vm_compute; reflexivity.
  - simpl. set_solver.
  - repeat constructor; vm_compute; congruence.
Defined.

Lemma bind_ok {A} (r : Res A) : (x ←! r; Ok x) = r.
Proof. by destruct r. Qed.

Lemma polled_frame pipe k w :
  item (Nat.iter k (polled_once pipe) w) = item w
  ∧ description (Nat.iter k (polled_once pipe) w) = description w
  ∧ handlers (Nat.iter k (polled_once pipe) w) = handlers w
  ∧ closed (Nat.iter k (polled_once pipe) w) = closed w
  ∧ attempts (Nat.iter k (polled_once pipe) w) = attempts w
  ∧ timeouts (Nat.iter (S k) (polled_once pipe) w) = []
  ∧ calls (Nat.iter k (polled_once pipe) w)
    = calls w ++ mjoin (replicate k
        [poll pipe; add_timeout (milliseconds 250) (wait_for_end_cb pipe)]).
Proof.
  induction k as [|k (Hi & Hd & Hh & Hc & Ha & Ht & Hk)].
  - simpl. by rewrite app_nil_r.
  - rewrite !Nat.iter_succ. repeat split; try done.
    cbn [polled_once do_add_timeout set_timeouts emit calls].
    rewrite Hk, <- !app_assoc. f_equal.
    replace (S k) with (k + 1)%nat by lia.
    rewrite replicate_add, join_app. simpl. by rewrite ?app_nil_r.
Qed.

Lemma polling_loop t fd pipe rc k : ∀ w,
  timeouts w = [] →
  loop t (replicate k (timer fd None) ++ [timer fd rc])
    (do_add_timeout (milliseconds 250) (wait_for_end_cb pipe)
       (emit (poll pipe) w))
  = wait_for_end t pipe rc (Nat.iter (S k) (polled_once pipe) w).
Proof.
  induction k as [|k IH]; intros w Ht.
  - cbn [replicate app loop loop_step]. simpl timeouts. rewrite Ht.
    cbn [app]. apply bind_ok.
  - cbn [replicate app loop loop_step]. simpl timeouts. rewrite Ht.
    cbn [app]. unfold wait_for_end at 1. cbn [bind].
    change (set_timeouts []
              (do_add_timeout (milliseconds 250) (wait_for_end_cb pipe)
                 (emit (poll pipe) w))) with (polled_once pipe w).
    rewrite (IH (polled_once pipe w)) by done.
    by rewrite <- !Nat.iter_succ_r.
Qed.

(** X10.  However many polls find the child still running, what follows
    when the exit status arrives is what [wait_for_end] does with that
    status on a state that differs from the one at the hang-up only by the
    polls and timeouts recorded: the item, the registrations and the file
    objects are the same, and no timeout is left pending. *)
Theorem polling_is_transparent (t : Task) (fd : Z) (pipe : nat)
    (rc : option Z) (k : nat) (w : World) :
  timeouts w = [] →
  (w1 ←! wait_for_end t pipe None w;
   loop t (replicate k (timer fd None) ++ [timer fd rc]) w1)
  = wait_for_end t pipe rc (Nat.iter (S k) (polled_once pipe) w)
  ∧ item (Nat.iter (S k) (polled_once pipe) w) = item w
  ∧ handlers (Nat.iter (S k) (polled_once pipe) w) = handlers w
  ∧ closed (Nat.iter (S k) (polled_once pipe) w) = closed w
  ∧ timeouts (Nat.iter (S k) (polled_once pipe) w) = []
  ∧ calls (Nat.iter (S k) (polled_once pipe) w)
    = calls w ++ mjoin (replicate (S k)
        [poll pipe; add_timeout (milliseconds 250) (wait_for_end_cb pipe)]).
Proof.
  intros Ht.
  destruct (polled_frame pipe (S k) w) as (Hi & _ & Hh & Hc & _ & _ & Hk).
  destruct (polled_frame pipe k w) as (_ & _ & _ & _ & _ & Ht' & _).
  repeat split; try done.
  unfold wait_for_end at 1. cbn [bind]. by apply polling_loop.
Qed.

Lemma polling_is_transparent_witness :
  (w1 ←! wait_for_end (job (Some true) (Some 1) None) 0 None item1;
   loop (job (Some true) (Some 1) None)
     (replicate 3 (timer 5 None) ++ [timer 5 (Some 0)]) w1)
  = wait_for_end (job (Some true) (Some 1) None) 0 (Some 0)
      (Nat.iter 4 (polled_once 0) item1)
  ∧ item (Nat.iter 4 (polled_once 0) item1) = item item1
  ∧ handlers (Nat.iter 4 (polled_once 0) item1) = handlers item1
  ∧ closed (Nat.iter 4 (polled_once 0) item1) = closed item1
  ∧ timeouts (Nat.iter 4 (polled_once 0) item1) = []
  ∧ calls (Nat.iter 4 (polled_once 0) item1)
    = calls item1 ++ mjoin (replicate 4
        [poll 0; add_timeout (milliseconds 250) (wait_for_end_cb 0)]).
Proof.
  apply (polling_is_transparent (job (Some true) (Some 1) None) 5 0 (Some 0)
           3 item1).
  reflexivity.
Defined.

(** ** The master file objects *)

Lemma closed_ids_emit c w :
  closed_ids (emit c w)
  = closed_ids w ++ match c with m_close m => [m] | _ => [] end.
Proof. unfold closed_ids; simpl. rewrite omap_app. by destruct c. Qed.

Ltac fr :=
  unfold do_add_timeout, do_add_handler, do_remove_handler, do_close,
    closed_ids, starts in *;
  simpl in *;
  rewrite ?omap_app, ?List.filter_app, ?length_app in *;
  simpl in *;
  rewrite ?app_nil_r, ?Nat.add_0_r in *.

Lemma wait_for_end_frame t pipe rc w w' :
  wait_for_end t pipe rc w = Ok w' →
  closed w' = closed w ∧ closed_ids w' = closed_ids w
  ∧ attempts w' = attempts w ∧ starts w' = starts w
  ∧ handlers w' = handlers w.
Proof.
  unfold wait_for_end, handle_process_result, handle_process_error.
  destruct rc as [code|].
  - destruct (bool_decide _).
    + intros [= <-]. fr. done.
    + destruct (get_int "tries" _) as [n|]; cbn [bind]; [|done].
      assert (Hg : ∀ c1 c2 w0, get_int "tries"
              (emit c1 (emit c2 (set_item "tries" (VInt (n + 1)) w0)))
              = Ok (n + 1)).
      { intros. unfold get_int; simpl. by rewrite lookup_insert_eq. }
      rewrite Hg. cbn [bind]. unfold timedelta_seconds.
      destruct (may_retry _ _ _);
        [destruct (timedelta_in_range (retry_delay t)); cbn [bind]; [|done]
        |destruct (on_error t) as [[|]|]; [| |done]];
        intros [= <-]; fr; done.
  - intros [= <-]. fr. done.
Qed.

Lemma process_frame t fd w w' :
  process t fd w = Ok w' →
  closed w' = closed w ∧ closed_ids w' = closed_ids w
  ∧ attempts w' = S (attempts w) ∧ starts w' = S (starts w)
  ∧ handlers w'
    = <[fd := on_subprocess_stdout_cb (attempts w) (attempts w)]> (handlers w).
Proof.
  unfold process. cbn zeta.
  destruct (stdin_data t _) as [data|e]; cbn [bind]; [|done].
  intros [= <-]. fr. repeat split; first [done | lia].
Qed.

Lemma loop_step_close_inv t e w w' ph :
  run_inv t w ph → close_inv w → loop_step t e w = Ok w' → close_inv w'.
Proof.
  intros Hinv (Hatt & k & Hids & Hcl & Hk) Hstep.
  assert (Hsame : close_inv w) by (split; [done|]; exists k; done).
  destruct e as [fd events data rc | fd rc]; simpl in Hstep.
  - destruct (handlers w !! fd) as [[| |m pipe]|] eqn:Hl;
      try (injection Hstep as <-; done).
    destruct Hk as [[[fd1 Hh] Hks]|[Hh _]];
      [|by rewrite Hh, lookup_empty in Hl].
    rewrite Hh in Hl. apply lookup_singleton_Some in Hl as [Efd [= Em Ep]].
    subst fd m pipe.
    unfold on_subprocess_stdout in Hstep.
    set (w1 := if negb (is_closed k w) && negb (Z.land events _EPOLLIN =? 0)
               then emit (log_output data) (emit (m_read k) w) else w) in Hstep.
    assert (Hw1 : closed w1 = closed w ∧ closed_ids w1 = closed_ids w
                  ∧ attempts w1 = attempts w ∧ starts w1 = starts w
                  ∧ handlers w1 = handlers w).
    { subst w1. destruct (negb _ && negb _); fr; done. }
    destruct Hw1 as (Hc1 & Hi1 & Ha1 & Hs1 & Hh1).
    destruct (Z.land events _EPOLLHUP >? 0).
    + apply wait_for_end_frame in Hstep as (Hc & Hi & Ha & Hs & Hh').
      change (closed_ids (do_remove_handler fd1 (do_close k w1)))
        with (closed_ids (emit (remove_handler fd1) (emit (m_close k) w1))) in Hi.
      rewrite !closed_ids_emit, app_nil_r in Hi.
      change (closed (do_remove_handler fd1 (do_close k w1)))
        with ({[k]} ∪ closed w1) in Hc.
      change (handlers (do_remove_handler fd1 (do_close k w1)))
        with (delete fd1 (handlers w1)) in Hh'.
      change (attempts (do_remove_handler fd1 (do_close k w1)))
        with (attempts w1) in Ha.
      change (starts (do_remove_handler fd1 (do_close k w1)))
        with (starts (emit (remove_handler fd1) (emit (m_close k) w1))) in Hs.
      rewrite !starts_emit in Hs. simpl in Hs.
      split; [lia|]. exists (S k). rewrite Hi, Hi1, Hids, Hc, Hc1, Hh', Hh1, Hh.
      split; [by rewrite seq_S|]. split.
      * intros a. rewrite elem_of_union, elem_of_singleton, Hcl. lia.
      * right. split; [apply delete_singleton_eq | lia].
    + injection Hstep as <-. split; [lia|]. exists k.
      rewrite Hi1, Hc1, Hh1, Hs1. repeat split; try done.
      * by apply Hcl.
      * by apply Hcl.
      * left. eauto.
  - destruct (timeouts w) as [|[d cb] rest] eqn:Ht;
      [injection Hstep as <-; done|].
    assert (Hh : handlers w = ∅).
    { destruct Hinv as [Hph _ _ _ _ _ _].
      destruct ph; simpl in Hph; try tauto;
        destruct Hph as (_ & Ht' & _); congruence. }
    destruct Hk as [[[fd1 Hh1] _]|[_ Hks]].
    { rewrite Hh in Hh1. symmetry in Hh1.
      by apply (map_non_empty_singleton (M := gmap Z)) in Hh1. }
    destruct cb as [|pipe|m pipe].
    + apply process_frame in Hstep as (Hc & Hi & Ha & Hs & Hh').
      change (attempts (set_timeouts rest w)) with (attempts w) in *.
      change (starts (set_timeouts rest w)) with (starts w) in *.
      change (handlers (set_timeouts rest w)) with (handlers w) in *.
      change (closed (set_timeouts rest w)) with (closed w) in *.
      change (closed_ids (set_timeouts rest w)) with (closed_ids w) in *.
      split; [lia|]. exists k. rewrite Hi, Hc, Hh', Hh, Hatt, <- Hks, insert_empty.
      repeat split; try done; try (by apply Hcl). left. split; [eauto | lia].
    + apply wait_for_end_frame in Hstep as (Hc & Hi & Ha & Hs & Hh').
      change (attempts (set_timeouts rest w)) with (attempts w) in *.
      change (starts (set_timeouts rest w)) with (starts w) in *.
      change (handlers (set_timeouts rest w)) with (handlers w) in *.
      change (closed (set_timeouts rest w)) with (closed w) in *.
      change (closed_ids (set_timeouts rest w)) with (closed_ids w) in *.
      split; [lia|]. exists k. rewrite Hi, Hc, Hh', Hh.
      repeat split; try done; try (by apply Hcl). right. split; [done | lia].
    + injection Hstep as <-.
      split; [done|]. exists k. repeat split; try done; try (by apply Hcl).
      right. done.
Qed.

Lemma loop_close_inv t es : ∀ w w' ph,
  run_inv t w ph → close_inv w → loop t es w = Ok w' → close_inv w'.
Proof.
  induction es as [|e es IH]; intros w w' ph Hinv Hc Hrun; simpl in Hrun.
  - by injection Hrun as <-.
  - destruct (loop_step t e w) as [w1|] eqn:Hs; cbn [bind] in Hrun; [|done].
    destruct (loop_step_inv _ _ _ _ _ Hinv Hs) as [ph1 H1].
    eapply IH; eauto using loop_step_close_inv.
Qed.

(** X11.  In every run the master file objects are closed one by one, in
    the order of the attempts and exactly once each, at the hang-up of their
    attempt: [close()] has been called on the file objects of all attempts
    but the one whose handler is still registered, and on all of them once
    no handler is registered. *)
Theorem files_closed_once (t : Task) (fd : Z) (es : list io_event)
    (fields : gmap string value) (descr cwd : string) (w : World) :
  run t fd es (fresh fields descr cwd) = Ok w →
  ∃ k, closed_ids w = seq 0 k
       ∧ (∀ a, a ∈ closed w ↔ (a < k)%nat)
       ∧ ((handlers w ≠ ∅ ∧ S k = starts w) ∨ (handlers w = ∅ ∧ k = starts w)).
Proof.
  unfold run. destruct (enqueue _ _ _) as [w1|] eqn:He; cbn [bind]; [|done].
  intros Hrun.
  assert (Hc1 : close_inv w1).
  { unfold enqueue in He. cbn zeta in He.
    apply process_frame in He as (Hc & Hi & Ha & Hs & Hh).
    change (closed_ids (set_item "tries" (VInt 1)
              (emit (log_output (starting_line t (emit start_item (fresh fields descr cwd))))
                 (emit start_item (fresh fields descr cwd)))))
      with (@nil nat) in Hi.
    change (starts (set_item "tries" (VInt 1)
              (emit (log_output (starting_line t (emit start_item (fresh fields descr cwd))))
                 (emit start_item (fresh fields descr cwd)))))
      with 0%nat in Hs.
    simpl in Ha, Hc, Hh.
    split; [lia|]. exists 0%nat. rewrite Hi, Hc, Hh, insert_empty.
    repeat split; try done; [lia | left; split; [eauto | lia]]. }
  assert (Hinv : run_inv t w1 Running).
  { apply enqueue_inv in He as (Hph & Htr & Hs & Hr).
    split; rewrite ?Htr, ?Hs, ?Hr; try done; simpl; lia. }
  destruct (loop_close_inv _ _ _ _ _ Hinv Hc1 Hrun) as (_ & k & Hids & Hcl & Hk).
  exists k. repeat split; try done; try (by apply Hcl).
  destruct Hk as [[[fd1 Hh] Hks]|[Hh Hks]]; [left | right]; split; try done.
  rewrite Hh. apply (map_non_empty_singleton (M := gmap Z)).
Qed.

Lemma files_closed_once_witness :
  ∃ w,
    run (job (Some true) None None) 5
      [exits 5 "" 1; timer 5 None; exits 5 "" 1; timer 6 None] item1 = Ok w
    ∧ ∃ k, closed_ids w = seq 0 k
           ∧ (∀ a, a ∈ closed w ↔ (a < k)%nat)
           ∧ ((handlers w ≠ ∅ ∧ S k = starts w)
              ∨ (handlers w = ∅ ∧ k = starts w)).
Proof.
  eexists. split; [vm_compute; reflexivity|].
  apply (files_closed_once (job (Some true) None None) 5
           [exits 5 "" 1; timer 5 None; exits 5 "" 1; timer 6 None]
           ∅ "item-1" "/").
  vm_compute; reflexivity.
Defined.

(** ** No callback after the close *)




(** ** The file list of RsyncUpload, further *)

Lemma relative_file_list_cases cwd base (paths : list string) :
  relative_file_list cwd base paths
  = if bool_decide (Exists (λ p, p = "") paths)
    then Raise (ValueError "no path specified")
    else Ok (String.concat ""
               (map (λ p, relative_or_empty cwd base p +:+ nl) paths)).
Proof.
  induction paths as [|p ps IH]; [done|].
  cbn [relative_file_list].
  destruct (decide (p = "")) as [->|Hne].
  - rewrite (bool_decide_eq_true_2 (Exists _ ("" :: ps))) by (by left). done.
  - destruct (relpath_total cwd p base Hne) as [r Hr].
    rewrite Hr, IH. cbn [bind].
    destruct (decide (Exists (λ p, p = "") ps)) as [He|He].
    + rewrite (bool_decide_eq_true_2 (Exists _ ps)) by done.
      rewrite (bool_decide_eq_true_2 (Exists _ (p :: ps))) by (by right). done.
    + rewrite (bool_decide_eq_false_2 (Exists _ ps)) by done.
      rewrite (bool_decide_eq_false_2 (Exists _ (p :: ps)))
        by (intros [Hp|Hps]%Exists_cons; done).
      assert (Hp : relative_or_empty cwd base p = r)
        by (unfold relative_or_empty; by rewrite Hr).
      cbn [bind map]. by rewrite concat_empty_cons, Hp, append_assoc.
Qed.

(** X12.  [RsyncUpload.stdin_data] raises the [ValueError] of
    [os.path.relpath] exactly when one of the files realizes to the empty
    path; otherwise it returns one line per file, in the order of the list:
    the path relative to [target_source_path] and a newline.  For the empty
    list it is the empty string. *)
Theorem rsync_stdin_data_cases (base : option bool * string) (target : template)
    (files : list template) (target_source_path : string)
    (bwlimit : template) (max_tries : option Z) (w : World) :
  stdin_data (RsyncUpload base target files target_source_path bwlimit max_tries) w
  = if bool_decide (Exists (λ f, realize f (item w) = "") files)
    then Raise (ValueError "no path specified")
    else Ok (String.concat ""
               (map (λ f, relative_or_empty (getcwd w) target_source_path
                            (realize f (item w)) +:+ nl) files)).
Proof.
  unfold stdin_data. cbn [class RsyncUpload with_class].
  rewrite <- (mapM_map (λ p, r ←! posixpath.relpath (getcwd w) p target_source_path;
                             Ok (r +:+ nl)) (λ f, realize f (item w))).
  rewrite stdin_data_lines, relative_file_list_cases, map_map.
  rewrite (bool_decide_ext _ (Exists (λ f, realize f (item w) = "") files));
    [done|].
  by rewrite Exists_fmap.
Qed.

(** X13.  When every file lies directly in the base directory, the stdin
    content is the list of the file names, one per line and in order,
    whatever the working directory of the task is. *)
Theorem rsync_lists_children (base : option bool * string) (target : template)
    (bwlimit : template) (max_tries : option Z) (w : World)
    (d : string) (names : list string) :
  plain d → Forall plain names →
  stdin_data
    (RsyncUpload base target (map (λ f, Literal (d +:+ "/" +:+ f)) names)
       (d +:+ "/") bwlimit max_tries) w
  = Ok (String.concat "" (map (λ f, f +:+ nl) names)).
Proof.
  intros Hd Hall. unfold stdin_data. cbn [class RsyncUpload with_class].
  assert (Hm : mapM (λ f, r ←! posixpath.relpath (getcwd w)
                                 (realize f (item w)) (d +:+ "/");
                          Ok (r +:+ nl))
                 (map (λ f, Literal (d +:+ "/" +:+ f)) names)
               = Ok (map (λ f, f +:+ nl) names)).
  { induction Hall as [|f names Hf _ IH]; [done|].
    cbn [map mapM realize]. rewrite (relpath_child _ _ _ Hd Hf). cbn [bind].
    rewrite IH. done. }
  rewrite Hm. done.
Qed.

Lemma rsync_lists_children_witness :
  stdin_data
    (RsyncUpload (Some true, "RsyncUpload") (Literal "rsync://host/module/")
       (map (λ f, Literal ("data" +:+ "/" +:+ f)) ["a.warc.gz"; "b.warc.gz"])
       ("data" +:+ "/") (Literal "0") None) item1
  = Ok (String.concat "" (map (λ f, f +:+ nl) ["a.warc.gz"; "b.warc.gz"])).
Proof.
  apply (rsync_lists_children (Some true, "RsyncUpload")
           (Literal "rsync://host/module/") (Literal "0") None item1
           "data" ["a.warc.gz"; "b.warc.gz"]).
  - repeat split; done.
  - repeat constructor; done.
Defined.

(** ** A process that always fails *)

Lemma stdin_data_base t w :
  (∀ files tsp, class t ≠ RsyncUploadClass files tsp) →
  stdin_data t w = Ok "".
Proof.
  intros H. unfold stdin_data. destruct (class t); [done | done |].
  by destruct (H files target_source_path).
Qed.

Lemma wait_for_end_description t pipe rc w w' :
  wait_for_end t pipe rc w = Ok w' → description w' = description w.
Proof.
  unfold wait_for_end, handle_process_result, handle_process_error,
    timedelta_seconds.
  destruct rc as [code|]; [|by intros [= <-]].
  destruct (bool_decide _); [by intros [= <-]|].
  destruct (get_int "tries" _) as [n|]; cbn [bind]; [|done].
  destruct (get_int "tries" _) as [n'|]; cbn [bind]; [|done].
  destruct (may_retry _ _ _);
    [destruct (timedelta_in_range _); cbn [bind]; [|done]
    |destruct (on_error t) as [[|]|]; [| |done]];
    by intros [= <-].
Qed.

Lemma loop_step_description t e w w' :
  loop_step t e w = Ok w' → description w' = description w.
Proof.
  destruct e as [fd events data rc | fd rc]; cbn [loop_step].
  - destruct (handlers w !! fd) as [[| |m pipe]|]; try (by intros [= <-]).
    unfold on_subprocess_stdout.
    destruct (negb _ && negb _); (destruct (_ >? 0); [|by intros [= <-]]);
      intros H%wait_for_end_description; by rewrite H.
  - destruct (timeouts w) as [|[d cb] rest]; [by intros [= <-]|].
    destruct cb as [|pipe|m pipe]; [| |by intros [= <-]].
    + unfold process. cbn zeta.
      destruct (stdin_data t _); cbn [bind]; [|done]. by intros [= <-].
    + intros H%wait_for_end_description. by rewrite H.
Qed.

Lemma lines_description t c w1 w2 :
  description w1 = description w2 →
  returned_line t c w1 = returned_line t c w2
  ∧ failed_line t w1 = failed_line t w2.
Proof. intros H. unfold returned_line, failed_line. by rewrite H. Qed.

Lemma failing_exit_step t fd a b c m w :
  run_inv t w Running →
  handlers w = {[fd := on_subprocess_stdout_cb a b]} →
  max_tries t = Some m →
  retry_on_exit_code t = None →
  on_error t = Some true →
  timedelta_in_range (retry_delay t) = true →
  c ∉ accept_on_exit_code t →
  ∃ w', loop_step t (exits fd "" c) w = Ok w'
        ∧ starts w' = starts w
        ∧ ((Z.of_nat (starts w) + 1 < m ∧ run_inv t w' Retrying)
           ∨ (m ≤ Z.of_nat (starts w) + 1 ∧ run_inv t w' Failed
              ∧ ∃ pre, calls w' = pre
                  ++ [log_output (returned_line t c w); log_error c;
                      log_output (failed_line t w); fail_item])).
Proof.
  intros Hinv Hh Hm Hr Hoe Hrange Hc.
  assert (Hex : ∃ w', loop_step t (exits fd "" c) w = Ok w'
    ∧ starts w' = starts w
    ∧ handlers w' = ∅
    ∧ ((Z.of_nat (starts w) + 1 < m
        ∧ timeouts w' = [(seconds (retry_delay t), process_cb)]
        ∧ outcomes w' = [])
       ∨ (m ≤ Z.of_nat (starts w) + 1 ∧ timeouts w' = []
          ∧ outcomes w' = [fail_item]
          ∧ ∃ pre, calls w' = pre
              ++ [log_output (returned_line t c w); log_error c;
                  log_output (failed_line t w); fail_item]))).
  { destruct (inv_phase _ _ _ Hinv) as (_ & Ht & Ho).
    pose proof (inv_tries _ _ _ Hinv) as Htr. simpl in Htr.
    rewrite Z.add_0_r in Htr.
    unfold exits. cbn [loop_step]. rewrite Hh, lookup_singleton_eq.
    unfold on_subprocess_stdout.
    change (Z.land (Z.lor _EPOLLIN _EPOLLHUP) _EPOLLHUP >? 0) with true.
    cbv iota.
    set (w1 := if negb (is_closed a w)
                  && negb (Z.land (Z.lor _EPOLLIN _EPOLLHUP) _EPOLLIN =? 0)
               then emit (log_output "") (emit (m_read a) w) else w).
    assert (Hw1 : tries w1 = tries w ∧ starts w1 = starts w
                  ∧ outcomes w1 = outcomes w ∧ timeouts w1 = timeouts w
                  ∧ handlers w1 = handlers w
                  ∧ description w1 = description w).
    { subst w1. destruct (negb _ && negb _); obs; repeat split; lia. }
    destruct Hw1 as (Htr1 & Hs1 & Ho1 & Ht1 & Hh1 & Hd1).
    clearbody w1.
    unfold wait_for_end. rewrite (bool_decide_eq_false_2 _ Hc).
    rewrite (handle_process_error_eq t c (Z.of_nat (starts w)))
      by (unfold tries in *; simpl; congruence).
    cbn zeta. unfold may_retry. rewrite Hm, Hr, andb_true_r, Hoe, Hrange.
    destruct (Z.ltb_spec (Z.of_nat (starts w) + 1) m) as [Hlt|Hge].
    - eexists. split; [reflexivity|].
      split; [obs; lia|].
      split; [obs; rewrite Hh1, Hh; apply delete_singleton_eq|].
      left. split; [done|]. obs. by rewrite Ht1, Ht, Ho1, Ho.
    - eexists. split; [reflexivity|].
      split; [obs; lia|].
      split; [obs; rewrite Hh1, Hh; apply delete_singleton_eq|].
      right. split; [done|].
      split; [obs; by rewrite Ht1, Ht|].
      split; [obs; by rewrite Ho1, Ho|].
      exists (calls w1 ++ [m_close a; remove_handler fd; poll b]).
      destruct (lines_description t c w w1) as [-> ->]; [done|].
      simpl. rewrite <- !app_assoc. reflexivity. }
  destruct Hex as (w' & Hstep & Hs & Hh' & Hcase).
  exists w'. split; [done|]. split; [done|].
  destruct (loop_step_inv _ _ _ _ _ Hinv Hstep) as [ph' Hinv'].
  destruct Hcase as [(Hlt & Ht' & Ho')|(Hge & Ht' & Ho' & Hpre)]; [left | right];
    (split; [done|]).
  - assert (Hp : in_phase Retrying w') by (simpl; eauto).
    by rewrite <- (in_phase_unique _ _ _ (inv_phase _ _ _ Hinv') Hp).
  - assert (Hp : in_phase Failed w') by (simpl; eauto).
    split; [|done].
    by rewrite <- (in_phase_unique _ _ _ (inv_phase _ _ _ Hinv') Hp).
Qed.

Lemma retry_timer_step t fd w :
  run_inv t w Retrying →
  (∀ files tsp, class t ≠ RsyncUploadClass files tsp) →
  ∃ w' a b, loop_step t (timer fd None) w = Ok w'
            ∧ starts w' = S (starts w)
            ∧ handlers w' = {[fd := on_subprocess_stdout_cb a b]}
            ∧ run_inv t w' Running.
Proof.
  intros Hinv Hbase.
  destruct (inv_phase _ _ _ Hinv) as (Hh & [d Ht] & Ho).
  assert (Hex : ∃ w', loop_step t (timer fd None) w = Ok w').
  { cbn [loop_step]. rewrite Ht. unfold process. cbn zeta.
    rewrite stdin_data_base by done. cbn [bind]. eauto. }
  destruct Hex as [w' Hstep]. exists w', (attempts w), (attempts w).
  split; [done|].
  destruct (loop_step_inv _ _ _ _ _ Hinv Hstep) as [ph' Hinv'].
  cbn [loop_step] in Hstep. rewrite Ht in Hstep.
  apply process_obs in Hstep as (Hh' & Ht' & _ & Ho' & Hs' & _).
  change (handlers (set_timeouts [] w)) with (handlers w) in Hh'.
  change (starts (set_timeouts [] w)) with (starts w) in Hs'.
  change (outcomes (set_timeouts [] w)) with (outcomes w) in Ho'.
  change (timeouts (set_timeouts [] w)) with (@nil (timedelta * callback)) in Ht'.
  rewrite Hh, insert_empty in Hh'.
  split; [done|]. split; [done|].
  assert (Hp : in_phase Running w').
  { simpl. rewrite Hh', Ht', Ho', Ho. eauto 10. }
  by rewrite <- (in_phase_unique _ _ _ (inv_phase _ _ _ Hinv') Hp).
Qed.

Lemma failed_is_final t es : ∀ w,
  run_inv t w Failed → loop t es w = Ok w.
Proof.
  induction es as [|e es IH]; intros w Hinv; [done|].
  destruct (inv_phase _ _ _ Hinv) as (Hh & Ht & _).
  cbn [loop]. replace (loop_step t e w) with (Ok w).
  - cbn [bind]. by apply IH.
  - destruct e; cbn [loop_step]; by rewrite ?Hh, ?lookup_empty, ?Ht.
Qed.

Lemma failing_loop t fd c m :
  max_tries t = Some m →
  retry_on_exit_code t = None →
  on_error t = Some true →
  timedelta_in_range (retry_delay t) = true →
  c ∉ accept_on_exit_code t →
  (∀ files tsp, class t ≠ RsyncUploadClass files tsp) →
  ∀ k w a b,
    run_inv t w Running →
    handlers w = {[fd := on_subprocess_stdout_cb a b]} →
    Z.max 1 (m - 1) - Z.of_nat (starts w) + 1 ≤ Z.of_nat k →
    ∃ w', loop t (failing fd c k) w = Ok w'
          ∧ run_inv t w' Failed
          ∧ Z.of_nat (starts w') = Z.max 1 (m - 1)
          ∧ ∃ pre, calls w' = pre
              ++ [log_output (returned_line t c w); log_error c;
                  log_output (failed_line t w); fail_item].
Proof.
  intros Hm Hr Hoe Hrange Hc Hbase.
  induction k as [|k IH]; intros w a b Hinv Hh Hk.
  - pose proof (inv_max_tries _ _ _ Hinv m Hm) as Hmax. simpl in Hmax. lia.
  - pose proof (inv_max_tries _ _ _ Hinv m Hm) as Hmax.
    pose proof (inv_started _ _ _ Hinv) as H1. simpl in Hmax.
    unfold failing. cbn [replicate mjoin list_join].
    change (mjoin (replicate k [exits fd "" c; timer fd None]))
      with (failing fd c k).
    cbn [app loop].
    destruct (failing_exit_step t fd a b c m w Hinv Hh Hm Hr Hoe Hrange Hc)
      as (w1 & Hs1 & Hst1 & [[Hlt Hi1]|(Hge & Hi1 & Hpre)]);
      rewrite Hs1; cbn [bind].
    + destruct (retry_timer_step t fd w1 Hi1 Hbase)
        as (w2 & a2 & b2 & Hs2 & Hst2 & Hh2 & Hi2).
      rewrite Hs2. cbn [bind].
      destruct (IH w2 a2 b2) as (w' & Hrun & Hf & Hst & Hpre);
        [done | done | lia |].
      exists w'. split; [done|]. split; [done|]. split; [done|].
      apply loop_step_description in Hs1, Hs2.
      destruct (lines_description t c w2 w) as [E1 E2]; [congruence|].
      by rewrite E1, E2 in Hpre.
    + exists w1. split.
      * apply (failed_is_final t (timer fd None :: failing fd c k) w1 Hi1).
      * split; [done|]. split; [lia | done].
Qed.

(** X14.  A process that exits with the same non-accepted code on every
    attempt, on a task with [max_tries = m], [retry_on_exit_code = None],
    [on_error] true and a [retry_delay] that [datetime.timedelta] accepts:
    the run starts exactly [m - 1] processes (one, when [m] is 2 or less),
    then logs the exit code and the failure and fails the item, these being
    the last calls it makes, with [tries] at one more than the number of
    starts, and comes to rest. *)
Theorem always_failing_run (t : Task) (fd c m : Z) (k : nat)
    (fields : gmap string value) (descr cwd : string) :
  max_tries t = Some m →
  retry_on_exit_code t = None →
  on_error t = Some true →
  timedelta_in_range (retry_delay t) = true →
  c ∉ accept_on_exit_code t →
  (∀ files tsp, class t ≠ RsyncUploadClass files tsp) →
  Z.max 1 (m - 1) ≤ Z.of_nat k →
  ∃ w, run t fd (failing fd c k) (fresh fields descr cwd) = Ok w
       ∧ outcomes w = [fail_item]
       ∧ Z.of_nat (starts w) = Z.max 1 (m - 1)
       ∧ tries w = Some (VInt (Z.max 1 (m - 1) + 1))
       ∧ at_rest w
       ∧ ∃ pre, calls w = pre
           ++ [log_output (returned_line t c (fresh fields descr cwd));
               log_error c;
               log_output (failed_line t (fresh fields descr cwd));
               fail_item].
Proof.
  intros Hm Hr Hoe Hrange Hc Hbase Hk.
  assert (He : ∃ w0, enqueue t fd (fresh fields descr cwd) = Ok w0
                     ∧ description w0 = descr).
  { unfold enqueue, process. cbn zeta. rewrite stdin_data_base by done.
    cbn [bind]. eauto. }
  destruct He as (w0 & He & Hd0). unfold run. rewrite He. cbn [bind].
  assert (Hh : handlers w0 = {[fd := on_subprocess_stdout_cb 0 0]}).
  { unfold enqueue in He. cbn zeta in He.
    apply process_obs in He as (Hh & _). simpl in Hh.
    by rewrite insert_empty in Hh. }
  apply enqueue_inv in He as (Hph & Htr & Hs & Hre).
  assert (Hinv : run_inv t w0 Running).
  { split; rewrite ?Htr, ?Hs, ?Hre; try done; simpl; lia. }
  destruct (failing_loop t fd c m Hm Hr Hoe Hrange Hc Hbase k w0 0%nat 0%nat
              Hinv Hh) as (w & Hrun & Hi & Hst & Hpre); [lia|].
  exists w. split; [done|].
  destruct (inv_phase _ _ _ Hi) as (Hh' & Ht' & Ho').
  pose proof (inv_tries _ _ _ Hi) as Htr'.
  simpl in Htr'. rewrite Hst in Htr'.
  destruct (lines_description t c w0 (fresh fields descr cwd)) as [E1 E2];
    [done|].
  rewrite E1, E2 in Hpre. done.
Qed.

Lemma always_failing_run_witness :
  ∃ w, run (job (Some true) (Some 4) None) 5 (failing 5 1 5) item1 = Ok w
       ∧ outcomes w = [fail_item]
       ∧ Z.of_nat (starts w) = Z.max 1 (4 - 1)
       ∧ tries w = Some (VInt (Z.max 1 (4 - 1) + 1))
       ∧ at_rest w
       ∧ ∃ pre, calls w = pre
           ++ [log_output (returned_line (job (Some true) (Some 4) None) 1 item1);
               log_error 1;
               log_output (failed_line (job (Some true) (Some 4) None) item1);
               fail_item].
Proof.
  apply (always_failing_run (job (Some true) (Some 4) None) 5 1 4 5
           ∅ "item-1" "/").
  - reflexivity.
  - reflexivity.
  - reflexivity.
  - reflexivity.
  - simpl. intros H%list_elem_of_In. simpl in H. intuition congruence.
  - intros files tsp. simpl. discriminate.
  - vm_compute. discriminate.
Defined.

(** A [retry_delay] that [datetime.timedelta] refuses: the first failure
    that is to be retried logs the Retrying line and then raises, before any
    timeout is added. *)
Example out_of_range_delay_raises :
  run (ExternalProcess (Some true, "Job") "Job" [Literal "true"] (Some 3)
         (10 ^ 15) [0] None None)
      5 (failing 5 1 3) item1
  = Raise OverflowError.
Proof. vm_compute. reflexivity. Qed.


(** ** A run that succeeds at once *)

Ltac lg :=
  unfold do_add_timeout, do_add_handler, do_remove_handler, do_close,
    output_log, outcomes, starts, tries in *;
  simpl in *;
  rewrite ?omap_app, ?List.filter_app, ?length_app in *;
  simpl in *;
  rewrite ?app_nil_r in *.

(** X15.  The output log of a run whose first attempt is accepted tells the
    whole story in order: the starting line, the output batches as they were
    delivered, the last batch that came with the hang-up, and the finished
    line.  The item is completed once, with [tries] still 1 and nothing
    left registered with the loop. *)
Theorem successful_run_log (t : Task) (fd c : Z)
    (batches : list (Z * string)) (last : string)
    (fields : gmap string value) (descr cwd : string) :
  (∀ files tsp, class t ≠ RsyncUploadClass files tsp) →
  c ∈ accept_on_exit_code t →
  Forall (λ b, Z.land b.1 _EPOLLIN ≠ 0 ∧ Z.land b.1 _EPOLLHUP ≤ 0) batches →
  ∃ w, run t fd (map (readable fd) batches ++ [exits fd last c])
         (fresh fields descr cwd) = Ok w
       ∧ output_log w
         = starting_line t (fresh fields descr cwd)
           :: map snd batches
           ++ [last; finished_line t (fresh fields descr cwd)]
       ∧ outcomes w = [complete_item]
       ∧ tries w = Some (VInt 1)
       ∧ starts w = 1%nat
       ∧ at_rest w.
Proof.
  intros Hbase Hc Hall.
  assert (He : ∃ w0, enqueue t fd (fresh fields descr cwd) = Ok w0
    ∧ handlers w0 = {[fd := on_subprocess_stdout_cb 0 0]}
    ∧ closed w0 = ∅ ∧ timeouts w0 = [] ∧ outcomes w0 = []
    ∧ output_log w0 = [starting_line t (fresh fields descr cwd)]
    ∧ description w0 = descr
    ∧ tries w0 = Some (VInt 1) ∧ starts w0 = 1%nat).
  { unfold enqueue, process. cbn zeta. rewrite stdin_data_base by done.
    cbn [bind]. eexists. split; [reflexivity|]. lg.
    by rewrite insert_empty, lookup_insert_eq. }
  destruct He as (w0 & He & Hh0 & Hc0 & Ht0 & Ho0 & Hl0 & Hd0 & Htr0 & Hs0).
  unfold run. rewrite He. cbn [bind]. rewrite loop_app.
  destruct (readable_batches_loop t fd 0 0 batches w0)
    as (w1 & Hrun & Hcalls & Hl1 & Hi1 & Hh1 & Ht1 & Hc1 & Ho1 & Hd1);
    [by rewrite Hh0, lookup_singleton_eq | by rewrite Hc0 | done |].
  rewrite Hrun. cbn [bind loop loop_step exits].
  rewrite Hh1, Hh0, lookup_singleton_eq.
  unfold on_subprocess_stdout, is_closed.
  rewrite bool_decide_eq_false_2 by (rewrite Hc1, Hc0; set_solver).
  change (Z.land (Z.lor _EPOLLIN _EPOLLHUP) _EPOLLIN =? 0) with false.
  change (Z.land (Z.lor _EPOLLIN _EPOLLHUP) _EPOLLHUP >? 0) with true.
  cbn [negb andb]. cbv iota.
  unfold wait_for_end. rewrite (bool_decide_eq_true_2 _ Hc).
  unfold handle_process_result. cbn [bind].
  eexists. split; [reflexivity|].
  assert (Hs1 : starts w1 = 1%nat).
  { unfold starts in *. rewrite Hcalls, List.filter_app, length_app, Hs0.
    clear. induction batches as [|b bs IH]; [done|]. simpl in *. lia. }
  unfold at_rest, finished_line, starting_line. lg.
  rewrite Hl1, Hl0, Ho1, Ho0, Hi1, Htr0, Ht1, Ht0, Hh1, Hh0, Hd1, Hd0, Hs1.
  rewrite <- !app_assoc. simpl.
  repeat split; try done. apply delete_singleton_eq.
Qed.

Lemma successful_run_log_witness :
  ∃ w, run (job (Some true) (Some 1) None) 5
         (map (readable 5) [(1, "fetching "); (1, "page 1 ")]
            ++ [exits 5 "done" 0]) item1 = Ok w
       ∧ output_log w
         = starting_line (job (Some true) (Some 1) None) item1
           :: map snd [(1, "fetching "); (1, "page 1 ")]
           ++ [ "done"; finished_line (job (Some true) (Some 1) None) item1]
       ∧ outcomes w = [complete_item]
       ∧ tries w = Some (VInt 1)
       ∧ starts w = 1%nat
       ∧ at_rest w.
Proof.
  apply (successful_run_log (job (Some true) (Some 1) None) 5 0
           [(1, "fetching "); (1, "page 1 ")] "done" ∅ "item-1" "/").
  - intros files tsp. simpl. discriminate.
  - simpl. set_solver.
  - repeat constructor; vm_compute; congruence.
Defined.

(** ** What is registered with the loop *)

(** X16.  At any moment of a run the task has at most one registration with
    the loop for the item: one readiness handler or one pending timeout,
    never both and never two of a kind.  So no two attempts of an item
    overlap. *)
Theorem one_registration (t : Task) (fd : Z) (es : list io_event)
    (fields : gmap string value) (descr cwd : string) (w : World) :
  run t fd es (fresh fields descr cwd) = Ok w →
  (size (handlers w) + length (timeouts w) ≤ 1)%nat.
Proof.
  intros Hrun. apply run_run_inv in Hrun as [ph Hinv].
  pose proof (inv_phase _ _ _ Hinv) as Hph.
  destruct ph; simpl in Hph.
  - destruct Hph as ((fd0 & m & p & ->) & -> & _).
    rewrite map_size_singleton. simpl. lia.
  - destruct Hph as (-> & [p ->] & _). rewrite map_size_empty. simpl. lia.
  - destruct Hph as (-> & [d ->] & _). rewrite map_size_empty. simpl. lia.
  - destruct Hph as (-> & -> & _). rewrite map_size_empty. simpl. lia.
  - destruct Hph as (-> & -> & _). rewrite map_size_empty. simpl. lia.
  - destruct Hph as (-> & -> & _). rewrite map_size_empty. simpl. lia.
Qed.

Lemma one_registration_witness :
  ∃ w,
    run (job (Some true) (Some 3) None) 5
      [exits 5 "" 1; timer 5 None; ready 5 16 "" None] item1 = Ok w
    ∧ (size (handlers w) + length (timeouts w) ≤ 1)%nat.
Proof.
  eexists. split; [vm_compute; reflexivity|].
  apply (one_registration (job (Some true) (Some 3) None) 5
           [exits 5 "" 1; timer 5 None; ready 5 16 "" None] ∅ "item-1" "/").
  vm_compute; reflexivity.
Defined.

Lemma at_rest_loop t es : ∀ w, at_rest w → loop t es w = Ok w.
Proof.
  induction es as [|e es IH]; intros w [Hh Ht]; [done|].
  cbn [loop]. replace (loop_step t e w) with (Ok w).
  - cbn [bind]. by apply IH.
  - destruct e; cbn [loop_step]; by rewrite ?Hh, ?lookup_empty, ?Ht.
Qed.

(** X17.  An outcome is final: once [complete_item] or [fail_item] has been
    called, the task has neither a handler nor a timeout registered for the
    item, so whatever the loop delivers afterwards changes nothing: no
    further process start, log line or outcome. *)
Theorem outcome_is_final (t : Task) (fd : Z) (es es' : list io_event)
    (fields : gmap string value) (descr cwd : string) (w : World) :
  run t fd es (fresh fields descr cwd) = Ok w →
  outcomes w ≠ [] →
  at_rest w ∧ run t fd (es ++ es') (fresh fields descr cwd) = Ok w.
Proof.
  intros Hrun Hout.
  assert (Hrest : at_rest w).
  { apply run_run_inv in Hrun as [ph Hinv].
    pose proof (inv_phase _ _ _ Hinv) as Hph.
    destruct ph; simpl in Hph; destruct Hph as (? & ? & ?); try done. }
  split; [done|].
  unfold run in *.
  destruct (enqueue _ _ _) as [w0|]; cbn [bind] in *; [|done].
  rewrite loop_app, Hrun. cbn [bind]. by apply at_rest_loop.
Qed.

Lemma outcome_is_final_witness :
  ∃ w,
    run (job (Some true) (Some 1) None) 5 [exits 5 "" 0] item1 = Ok w
    ∧ at_rest w
    ∧ run (job (Some true) (Some 1) None) 5
        ([exits 5 "" 0] ++ [exits 5 "again" 0; timer 7 (Some 1)]) item1 = Ok w.
Proof.
  eexists. split; [vm_compute; reflexivity|].
  apply (outcome_is_final (job (Some true) (Some 1) None) 5 [exits 5 "" 0]
           [exits 5 "again" 0; timer 7 (Some 1)] ∅ "item-1" "/").
  - vm_compute; reflexivity.
  - vm_compute. discriminate.
Defined.
